(** * Linear and multitask kernels of gpytorch: a shallow embedding

    The development embeds [gpytorch/kernels/linear_kernel.py] and
    [gpytorch/kernels/multitask_kernel.py].  Tensors are modelled as torch
    stores them: a shape and a row-major list of entries.  The scalar type is
    abstract (the code computes on floats), and every operation that can raise
    in Python returns a [result]. *)

From Stdlib Require Import List ZArith Lia Bool Arith PeanoNat.
Import ListNotations.

(** ** Errors and the error monad *)

Inductive error : Type :=
| BroadcastError   (* operands of an elementwise operation cannot broadcast *)
| IndexError       (* a dimension argument is out of range *)
| MatmulError      (* inner dimensions of a matrix product differ *)
| ExpandError      (* expand to an incompatible size *)
| ShapeMismatch    (* factors of a lazy composition do not fit *)
| RangeError.      (* torch.range with bounds in the wrong order *)

Inductive result (A : Type) : Type :=
| Ok (a : A)
| Err (e : error).

Arguments Ok {A} a.
Arguments Err {A} e.

Definition bind {A B : Type} (c : result A) (k : A -> result B) : result B :=
  match c with
  | Ok a => k a
  | Err e => Err e
  end.

Notation "x <- c ;; k" := (bind c (fun x => k))
  (at level 61, c at next level, right associativity).

(** ** Scalars

    The entries of a tensor.  [feqb] is the comparison [==] of the scalar
    type; it is not assumed reflexive (a NaN differs from itself). *)

Class Scalar (F : Type) : Type := {
  fzero : F;
  fadd : F -> F -> F;
  fsub : F -> F -> F;
  fmul : F -> F -> F;
  feqb : F -> F -> bool
}.

(** Laws used by some theorems only; each theorem names the ones it needs. *)
Definition feqb_sound (F : Type) `{Scalar F} : Prop :=
  forall a b : F, feqb a b = true -> a = b.

Definition fmul_comm (F : Type) `{Scalar F} : Prop :=
  forall a b : F, fmul a b = fmul b a.

Arguments feqb_sound F {_}.
Arguments fmul_comm F {_}.

#[export] Instance Scalar_Z : Scalar Z := {
  fzero := 0%Z;
  fadd := Z.add;
  fsub := Z.sub;
  fmul := Z.mul;
  feqb := Z.eqb
}.

(** ** Tensors: shapes, row-major storage, indexing *)

Record tensor (A : Type) : Type := mkTensor {
  shape : list nat;
  data : list A
}.

Arguments mkTensor {A} shape data.
Arguments shape {A} t.
Arguments data {A} t.

Definition numel (s : list nat) : nat := fold_right Nat.mul 1 s.

Definition ndimension {A : Type} (t : tensor A) : nat := length (shape t).

(** A tensor is well formed when its storage has one entry per index. *)
Definition wf {A : Type} (t : tensor A) : Prop :=
  length (data t) = numel (shape t).

(** Position of a multi-index in row-major storage. *)
Fixpoint flat_index (s idx : list nat) : nat :=
  match s, idx with
  | _ :: s', i :: idx' => i * numel s' + flat_index s' idx'
  | _, _ => 0
  end.

(** All multi-indices of a shape, in storage order. *)
Fixpoint indices (s : list nat) : list (list nat) :=
  match s with
  | [] => [[]]
  | n :: s' => flat_map (fun i => map (cons i) (indices s')) (seq 0 n)
  end.

Definition in_range (s idx : list nat) : Prop := Forall2 lt idx s.

Definition tabulate {A : Type} (s : list nat) (f : list nat -> A) : tensor A :=
  mkTensor s (map f (indices s)).

Definition entry_d {A : Type} (d : A) (t : tensor A) (idx : list nat) : A :=
  nth (flat_index (shape t) idx) (data t) d.

Definition entry {F : Type} `{Scalar F} (t : tensor F) (idx : list nat) : F :=
  entry_d fzero t idx.

(** [x.size(d)] with Python's negative dimensions. *)
Definition norm_dim (rank : nat) (d : Z) : option nat :=
  if ((0 <=? d) && (d <? Z.of_nat rank))%Z then Some (Z.to_nat d)
  else if ((- Z.of_nat rank <=? d) && (d <? 0))%Z
       then Some (Z.to_nat (d + Z.of_nat rank))
       else None.

Definition size_at {A : Type} (t : tensor A) (d : Z) : result nat :=
  match norm_dim (ndimension t) d with
  | Some i => Ok (nth i (shape t) 0)
  | None => Err IndexError
  end.

(** ** Broadcasting *)

(** Shapes are aligned at their last dimension; the lists here are reversed
    shapes.  Two sizes are compatible when equal or when one of them is 1. *)
Fixpoint broadcast_rev (r1 r2 : list nat) : option (list nat) :=
  match r1, r2 with
  | [], _ => Some r2
  | _, [] => Some r1
  | a :: r1', b :: r2' =>
      if a =? b then option_map (cons a) (broadcast_rev r1' r2')
      else if a =? 1 then option_map (cons b) (broadcast_rev r1' r2')
      else if b =? 1 then option_map (cons a) (broadcast_rev r1' r2')
      else None
  end.

Definition broadcast_shapes (s1 s2 : list nat) : option (list nat) :=
  option_map (@rev nat) (broadcast_rev (rev s1) (rev s2)).

(** The index of an operand of shape [s] that a result index [idx] reads:
    the trailing [length s] components, with 0 where the operand has size 1. *)
Definition bidx (s idx : list nat) : list nat :=
  map (fun p => if fst p =? 1 then 0 else snd p)
      (combine s (skipn (length idx - length s) idx)).

Section TorchOps.

Context {F : Type} `{Scalar F}.

Definition broadcast_op (op : F -> F -> F) (x y : tensor F) : result (tensor F) :=
  match broadcast_shapes (shape x) (shape y) with
  | Some s =>
      Ok (tabulate s (fun idx =>
            op (entry x (bidx (shape x) idx)) (entry y (bidx (shape y) idx))))
  | None => Err BroadcastError
  end.

(** [x - y] and [x + y] on tensors. *)
Definition sub : tensor F -> tensor F -> result (tensor F) := broadcast_op fsub.
Definition add : tensor F -> tensor F -> result (tensor F) := broadcast_op fadd.

(** [torch.equal]: same size and all entries equal under [==]. *)
Fixpoint all_eqb (l1 l2 : list F) : bool :=
  match l1, l2 with
  | [], [] => true
  | a :: l1', b :: l2' => feqb a b && all_eqb l1' l2'
  | _, _ => false
  end.

Definition size_eqb (s1 s2 : list nat) : bool :=
  if list_eq_dec Nat.eq_dec s1 s2 then true else false.

Definition equal (x y : tensor F) : bool :=
  size_eqb (shape x) (shape y) && all_eqb (data x) (data y).

(** [x.transpose(d0, d1)]. *)
Definition swap_dims (l : list nat) (i j : nat) : list nat :=
  map (fun k => nth (if k =? i then j else if k =? j then i else k) l 0)
      (seq 0 (length l)).

Definition transpose_shape (s : list nat) (d0 d1 : Z) : result (list nat) :=
  match norm_dim (length s) d0, norm_dim (length s) d1 with
  | Some i, Some j => Ok (swap_dims s i j)
  | _, _ => Err IndexError
  end.

Definition transpose (t : tensor F) (d0 d1 : Z) : result (tensor F) :=
  match norm_dim (ndimension t) d0, norm_dim (ndimension t) d1 with
  | Some i, Some j =>
      Ok (tabulate (swap_dims (shape t) i j)
                   (fun idx => entry t (swap_dims idx i j)))
  | _, _ => Err IndexError
  end.

(** [x.expand(s)]: the sizes of [x], aligned at the last dimension, must
    equal those of [s] or be 1. *)
Fixpoint expandable_rev (r s : list nat) : bool :=
  match r, s with
  | [], _ => true
  | _ :: _, [] => false
  | a :: r', b :: s' => ((a =? b) || (a =? 1)) && expandable_rev r' s'
  end.

Definition expand (t : tensor F) (s : list nat) : result (tensor F) :=
  if expandable_rev (rev (shape t)) (rev s)
  then Ok (tabulate s (fun idx => entry t (bidx (shape t) idx)))
  else Err ExpandError.

(** [x.squeeze(0)]: drops the first dimension when it has size 1. *)
Definition squeeze0_shape (s : list nat) : list nat :=
  match s with
  | 1 :: s' => s'
  | _ => s
  end.

Definition squeeze0 (t : tensor F) : tensor F :=
  mkTensor (squeeze0_shape (shape t)) (data t).

(** [torch.matmul] on operands of two or more dimensions: the product of
    the trailing matrices, the leading dimensions broadcast.  The sum runs
    over the inner index from 0 up.  Operands of one dimension are handled
    by [matmul] below. *)
Definition matmul_shape (sa sb : list nat) : result (list nat) :=
  let ra := length sa in
  let rb := length sb in
  if (ra <? 2) || (rb <? 2) then Err MatmulError
  else if nth (ra - 1) sa 0 =? nth (rb - 2) sb 0 then
    match broadcast_shapes (firstn (ra - 2) sa) (firstn (rb - 2) sb) with
    | Some bs => Ok (bs ++ [nth (ra - 2) sa 0; nth (rb - 1) sb 0])
    | None => Err BroadcastError
    end
  else Err MatmulError.

Definition dot (k : nat) (f g : nat -> F) : F :=
  fold_left (fun acc kk => fadd acc (fmul (f kk) (g kk))) (seq 0 k) fzero.

Definition matmul_entry (a b : tensor F) (idx : list nat) : F :=
  let ra := ndimension a in
  let rb := ndimension b in
  let r := length idx - 2 in
  let bi := firstn r idx in
  let i := nth r idx 0 in
  let j := nth (S r) idx 0 in
  dot (nth (ra - 1) (shape a) 0)
      (fun kk => entry a (bidx (firstn (ra - 2) (shape a)) bi ++ [i; kk]))
      (fun kk => entry b (bidx (firstn (rb - 2) (shape b)) bi ++ [kk; j])).

Definition matmul2 (a b : tensor F) : result (tensor F) :=
  s <- matmul_shape (shape a) (shape b) ;;
  Ok (tabulate s (matmul_entry a b)).

(** The one-dimensional cases of [torch.matmul]: a vector on the left is a
    row, a vector on the right a column, and the added dimension is removed
    from the result.  The storage is row-major, so adding or removing a
    dimension of size 1 changes the shape only. *)
Definition reshape (t : tensor F) (s : list nat) : tensor F :=
  mkTensor s (data t).

Definition matmul (a b : tensor F) : result (tensor F) :=
  match ndimension a, ndimension b with
  | 0, _ | _, 0 => Err MatmulError
  | 1, 1 =>
      r <- matmul2 (reshape a (1 :: shape a)) (reshape b (shape b ++ [1])) ;;
      Ok (reshape r [])
  | 1, _ =>
      r <- matmul2 (reshape a (1 :: shape a)) b ;;
      Ok (reshape r (firstn (ndimension r - 2) (shape r)
                     ++ skipn (ndimension r - 1) (shape r)))
  | _, 1 =>
      r <- matmul2 a (reshape b (shape b ++ [1])) ;;
      Ok (reshape r (removelast (shape r)))
  | _, _ => matmul2 a b
  end.

(** [torch.zeros(s)]. *)
Definition zeros (s : list nat) : tensor F := tabulate s (fun _ => fzero).

End TorchOps.

(** [torch.range(0, n - 1).long()]: the integers 0, ..., n - 1.  The bounds
    are in the wrong order when [n] is 0, and torch raises. *)
Definition range_long (n : nat) : result (tensor Z) :=
  match n with
  | 0 => Err RangeError
  | S _ => Ok (mkTensor [n] (map Z.of_nat (seq 0 n)))
  end.

(** ** Lazy matrices *)

Section Lazy.

Context {F : Type} `{Scalar F}.

(** Modelled from the spec: the classes of [gpytorch.lazy] (RootLazyTensor,
    MatmulLazyTensor, NonLazyVariable, KroneckerProductLazyVariable, the sum
    that [+] builds and [squeeze]) are not among the source files.  The spec
    gives their meaning: [RootLazyTensor R] represents [R Rᵗ],
    [MatmulLazyTensor A B] represents [A B] (the kernel passes the second
    factor already transposed), the dense wrapper represents its tensor, the
    Kronecker form of two factors represents their Kronecker product, and
    the sum with a tensor represents the entrywise sum.  [Squeeze0] is the
    lazy matrix that [.squeeze(0)] returns on a lazy matrix: it represents
    the squeezed matrix. *)
Inductive LazyTensor : Type :=
| RootLazyTensor (root : tensor F)
| MatmulLazyTensor (lhs rhs : tensor F)
| NonLazyVariable (t : tensor F)
| KroneckerProductLazyVariable (task data : LazyTensor)
| SumLazyTensor (l : LazyTensor) (t : tensor F)
| Squeeze0 (l : LazyTensor).

(** Modelled from the spec: the Kronecker product of a matrix of shape
    [(r1, c1)] with one of shape [(r2, c2)] has shape [(r1 r2, c1 c2)]; each
    entry of the first factor scales a full copy of the second.  Factors that
    are not matrices are a shape mismatch. *)
Definition kron_shape (s1 s2 : list nat) : result (list nat) :=
  match s1, s2 with
  | [r1; c1], [r2; c2] => Ok [r1 * r2; c1 * c2]
  | _, _ => Err ShapeMismatch
  end.

(** Modelled from the spec: entry [(i, j)] of the Kronecker product, the
    entry of the first factor for the block of [(i, j)] times the entry of
    the second factor inside the block. *)
Definition kron_entry (c d : tensor F) (idx : list nat) : F :=
  let r2 := nth 0 (shape d) 0 in
  let c2 := nth 1 (shape d) 0 in
  let i := nth 0 idx 0 in
  let j := nth 1 idx 0 in
  fmul (entry c [i / r2; j / c2]) (entry d [i mod r2; j mod c2]).

(** Modelled from the spec: the Kronecker product of two matrices. *)
Definition kron (c d : tensor F) : result (tensor F) :=
  s <- kron_shape (shape c) (shape d) ;;
  Ok (tabulate s (kron_entry c d)).

(** Modelled from the spec: [size()] is the shape of the matrix the lazy form
    represents, computed from the shapes of the factors alone. *)
Fixpoint lazy_size (l : LazyTensor) : result (list nat) :=
  match l with
  | RootLazyTensor r =>
      st <- transpose_shape (shape r) (-1) (-2) ;;
      matmul_shape (shape r) st
  | MatmulLazyTensor a b => matmul_shape (shape a) (shape b)
  | NonLazyVariable t => Ok (shape t)
  | KroneckerProductLazyVariable c d =>
      sc <- lazy_size c ;;
      sd <- lazy_size d ;;
      kron_shape sc sd
  | SumLazyTensor l' _ => lazy_size l'
  | Squeeze0 l' =>
      s <- lazy_size l' ;;
      Ok (squeeze0_shape s)
  end.

(** Modelled from the spec: materialization returns the dense tensor equal to
    the matrix the lazy form represents. *)
Fixpoint evaluate (l : LazyTensor) : result (tensor F) :=
  match l with
  | RootLazyTensor r =>
      rt <- transpose r (-1) (-2) ;;
      matmul2 r rt
  | MatmulLazyTensor a b => matmul2 a b
  | NonLazyVariable t => Ok t
  | KroneckerProductLazyVariable c d =>
      mc <- evaluate c ;;
      md <- evaluate d ;;
      kron mc md
  | SumLazyTensor l' t =>
      m <- evaluate l' ;;
      add m t
  | Squeeze0 l' =>
      m <- evaluate l' ;;
      Ok (squeeze0 m)
  end.

(** Modelled from the spec: [l + t] accepts a tensor that broadcasts to
    [l.size()] and returns a new lazy matrix, the sum. *)
Definition lazy_add (l : LazyTensor) (t : tensor F) : result LazyTensor :=
  sz <- lazy_size l ;;
  match broadcast_shapes sz (shape t) with
  | Some s => if size_eqb s sz then Ok (SumLazyTensor l t) else Err ShapeMismatch
  | None => Err BroadcastError
  end.

(** Modelled from the spec: the implicit product of a lazy matrix with a
    tensor never forms the matrix when it has a cheaper structure.  The
    docstring of the linear kernel states the scheme [K v = X (Xᵗ v)]. *)
Fixpoint lazy_matmul (l : LazyTensor) (v : tensor F) : result (tensor F) :=
  match l with
  | RootLazyTensor r =>
      rt <- transpose r (-1) (-2) ;;
      w <- matmul rt v ;;
      matmul r w
  | MatmulLazyTensor a b =>
      w <- matmul b v ;;
      matmul a w
  | NonLazyVariable t => matmul t v
  | SumLazyTensor l' t =>
      p <- lazy_matmul l' v ;;
      q <- matmul t v ;;
      add p q
  | KroneckerProductLazyVariable _ _ | Squeeze0 _ =>
      m <- evaluate l ;;
      matmul m v
  end.

End Lazy.

Arguments LazyTensor F : clear implicits.

(** ** gpytorch/kernels/linear_kernel.py *)

Module LinearKernel.

Section Defs.

Context {F : Type} `{Scalar F}.

(** The two parameters the constructor registers.  Priors and bounds belong
    to the base class and do not enter [forward]. *)
Record t : Type := mk {
  variance : tensor F;
  offset : tensor F
}.

(** [__init__]: [variance] is [zeros(1)], [offset] is
    [zeros(1, 1, num_dimensions)]. *)
Definition init (num_dimensions : nat) : t :=
  {| variance := zeros [1]; offset := zeros [1; 1; num_dimensions] |}.

(** Training changes the values of the parameters, never their shapes. *)
Definition registered (k : t) (num_dimensions : nat) : Prop :=
  shape (variance k) = [1] /\ wf (variance k) /\
  shape (offset k) = [1; 1; num_dimensions] /\ wf (offset k).

(** The two branches of [forward]. *)
Definition root_branch (k : t) (x1 : tensor F) : result (LazyTensor F) :=
  c <- sub x1 (offset k) ;;
  Ok (RootLazyTensor c).

Definition matmul_branch (k : t) (x1 x2 : tensor F) : result (LazyTensor F) :=
  c1 <- sub x1 (offset k) ;;
  c2 <- sub x2 (offset k) ;;
  c2t <- transpose c2 2 1 ;;
  Ok (MatmulLazyTensor c1 c2t).

Definition forward (k : t) (x1 x2 : tensor F) : result (LazyTensor F) :=
  prod <- (if size_eqb (shape x1) (shape x2) && equal x1 x2
           then root_branch k x1
           else matmul_branch k x1 x2) ;;
  sz <- lazy_size prod ;;
  v <- expand (variance k) sz ;;
  lazy_add prod v.

End Defs.

Arguments t F : clear implicits.

End LinearKernel.

(** ** gpytorch/kernels/multitask_kernel.py *)

Module MultitaskKernel.

Section Defs.

Context {F : Type} `{Scalar F}.

(** What a data kernel's [forward] returns: a dense tensor or a lazy
    matrix. *)
Inductive kernel_output : Type :=
| Dense (m : tensor F)
| Lazy (l : LazyTensor F).

(** The kernel owns the task covariance module (an [IndexKernel], taken here
    as the function from the task indices to the lazy matrix that
    [evaluate_kernel] returns), the data kernel's [forward] and the number of
    tasks. *)
Record t : Type := mk {
  task_covar_module : tensor Z -> result (LazyTensor F);
  data_covar_module : tensor F -> tensor F -> result kernel_output;
  n_tasks : nat
}.

(** [covar_x]: the data covariance after [.squeeze(0)], wrapped when it is
    not lazy. *)
Definition covar_x_of (out : kernel_output) : LazyTensor F :=
  match out with
  | Dense m => NonLazyVariable (squeeze0 m)
  | Lazy l => Squeeze0 l
  end.

(** [forward].  The [print] calls write to standard output and do not change
    the result, but they call [size()] on the factors and on the product. *)
Definition forward (k : t) (x1 x2 : tensor F) : result (LazyTensor F) :=
  task_indices <- range_long (n_tasks k) ;;
  covar_i <- task_covar_module k task_indices ;;
  out <- data_covar_module k x1 x2 ;;
  let covar_x := covar_x_of out in
  _ <- lazy_size covar_i ;;
  _ <- lazy_size covar_x ;;
  let res := KroneckerProductLazyVariable covar_i covar_x in
  _ <- lazy_size res ;;
  Ok res.

(** [size]. *)
Definition size (k : t) (x1 x2 : tensor F) : result (list nat) :=
  if ndimension x1 =? 3 then
    b <- size_at x1 0 ;;
    n1 <- size_at x1 (-2) ;;
    n2 <- size_at x2 (-2) ;;
    Ok [b; n_tasks k * n1; n_tasks k * n2]
  else
    n1 <- size_at x1 (-2) ;;
    n2 <- size_at x2 (-2) ;;
    Ok [n_tasks k * n1; n_tasks k * n2].

End Defs.

Arguments t F : clear implicits.
Arguments kernel_output F : clear implicits.

End MultitaskKernel.

(** ** Vocabulary of the statements *)

Section Vocabulary.

Context {F : Type} `{Scalar F}.

(** The inputs of a kernel: [n] vectors of [d] coordinates, either as one
    matrix of shape [(n, d)] (then [b] is 1) or as [b] of them, of shape
    [(b, n, d)]. *)
Definition batched (x : tensor F) (b n d : nat) : Prop :=
  shape x = [b; n; d] \/ (b = 1 /\ shape x = [n; d]).

(** Coordinate [kk] of vector [i] of batch [bi] of an input. *)
Definition row_entry (x : tensor F) (bi i kk : nat) : F :=
  entry x (skipn (3 - ndimension x) [bi; i; kk]).

(** The elementwise reading of [x1 == x2]. *)
Definition elementwise_equal (x1 x2 : tensor F) : Prop :=
  Forall2 (fun a b => feqb a b = true) (data x1) (data x2).

(** The linear kernel as the docstring and the spec write it: entry
    [(i, j)] of batch [bi] is the product of vector [i] of [x1] and vector
    [j] of [x2], both minus the offset, plus the variance. *)
Definition linear_kernel_entry (o v x1 x2 : tensor F) (d bi i j : nat) : F :=
  fadd (dot d (fun kk => fsub (row_entry x1 bi i kk) (entry o [0; 0; kk]))
              (fun kk => fsub (row_entry x2 bi j kk) (entry o [0; 0; kk])))
       (entry v [0]).

(** The same matrix as one dense computation, [(x1 - o)(x2 - o)ᵗ + v]: the
    centered tensors, the second with its trailing matrix transposed, their
    product, and the variance broadcast to the shape of the product. *)
Definition linear_kernel_dense (o v x1 x2 : tensor F) : result (tensor F) :=
  c1 <- sub x1 o ;;
  c2 <- sub x2 o ;;
  c2t <- transpose c2 (-1) (-2) ;;
  p <- matmul2 c1 c2t ;;
  e <- expand v (shape p) ;;
  add p e.

(** The shape the spec gives to the output of the linear kernel: the
    leading dimensions of [x1], then [n1] and [n2]. *)
Definition spec_output_shape (s1 s2 : list nat) : list nat :=
  firstn (length s1 - 2) s1 ++ [nth (length s1 - 2) s1 0; nth (length s2 - 2) s2 0].

(** A lazy matrix of shape [s] that materializes to [m]: [size()] answers
    [s] and materialization returns [m], of that shape. *)
Definition lazy_represents (l : LazyTensor F) (s : list nat) (m : tensor F) : Prop :=
  lazy_size l = Ok s /\ evaluate l = Ok m /\ shape m = s.

Definition materialized_shape (l : LazyTensor F) : result (list nat) :=
  m <- evaluate l ;;
  Ok (shape m).

(** The last dimension of a shape is [e], which neither equals nor
    broadcasts against [d]. *)
Definition last_dim_mismatch (d : nat) (s : list nat) : Prop :=
  exists s0 e, s = s0 ++ [e] /\ e <> d /\ e <> 1 /\ d <> 1.

(** What a data kernel returned, seen as a matrix: its size and the dense
    tensor it stands for. *)
Definition output_size (out : MultitaskKernel.kernel_output F) : result (list nat) :=
  match out with
  | MultitaskKernel.Dense m => Ok (shape m)
  | MultitaskKernel.Lazy l => lazy_size l
  end.

Definition materialize_output (out : MultitaskKernel.kernel_output F)
  : result (tensor F) :=
  match out with
  | MultitaskKernel.Dense m => Ok m
  | MultitaskKernel.Lazy l => evaluate l
  end.

Definition output_represents (out : MultitaskKernel.kernel_output F)
    (s : list nat) (m : tensor F) : Prop :=
  output_size out = Ok s /\ materialize_output out = Ok m /\ shape m = s.

(** The task indices [0, 1, ..., n - 1]. *)
Definition task_index_vector (n : nat) : tensor Z :=
  mkTensor [n] (map Z.of_nat (seq 0 n)).

End Vocabulary.

(** [MultitaskKernel.size] written on the shapes alone. *)
Definition size_of_shapes (n : nat) (s1 s2 : list nat) : result (list nat) :=
  match norm_dim (length s1) (-2), norm_dim (length s2) (-2) with
  | Some i1, Some i2 =>
      if length s1 =? 3
      then Ok [nth 0 s1 0; n * nth i1 s1 0; n * nth i2 s2 0]
      else Ok [n * nth i1 s1 0; n * nth i2 s2 0]
  | _, _ => Err IndexError
  end.

(** ** Concrete inputs, over the integers *)

Definition ex_kernel : LinearKernel.t Z :=
  LinearKernel.mk (mkTensor [1] [10%Z]) (mkTensor [1; 1; 3] [1; 2; 3]%Z).

(** A kernel as the constructor leaves it, for one data dimension. *)
Definition ex_kernel1 : LinearKernel.t Z := LinearKernel.init 1.

Definition ex_x23 : tensor Z := mkTensor [2; 3] [1; 2; 3; 4; 5; 6]%Z.
Definition ex_x13 : tensor Z := mkTensor [1; 3] [7; 8; 9]%Z.
Definition ex_x03 : tensor Z := mkTensor [0; 3] [].
Definition ex_x123 : tensor Z := mkTensor [1; 2; 3] [1; 2; 3; 4; 5; 6]%Z.
Definition ex_x223 : tensor Z :=
  mkTensor [2; 2; 3] [1; 2; 3; 4; 5; 6; 6; 5; 4; 3; 2; 1]%Z.
Definition ex_x54 : tensor Z :=
  mkTensor [5; 4]
    [1; 2; 3; 4; 5; 6; 7; 8; 9; 10; 11; 12; 13; 14; 15; 16; 17; 18; 19; 20]%Z.
(** Two inputs with two batch dimensions, for a kernel on two data
    dimensions. *)
Definition ex_kernel2 : LinearKernel.t Z := LinearKernel.init 2.
Definition ex_x1222 : tensor Z :=
  mkTensor [1; 2; 2; 2] [1; 1; 1; 1; 1; 1; 1; 1]%Z.
Definition ex_y1222 : tensor Z :=
  mkTensor [1; 2; 2; 2] [0; 0; 1; 0; 0; 0; 0; 0]%Z.

(** Two batch dimensions again, three data dimensions, one input without
    vectors. *)
Definition ex_x1103 : tensor Z := mkTensor [1; 1; 0; 3] [].
Definition ex_x1123 : tensor Z := mkTensor [1; 1; 2; 3] [1; 2; 3; 4; 5; 6]%Z.

(** A multitask kernel on two tasks: a fixed task covariance and the linear
    kernel as data kernel. *)
Definition ex_task_covar : tensor Z := mkTensor [2; 2] [2; 1; 1; 2]%Z.

Definition ex_multitask : MultitaskKernel.t Z :=
  MultitaskKernel.mk
    (fun _ => Ok (NonLazyVariable ex_task_covar))
    (fun x1 x2 => l <- LinearKernel.forward ex_kernel x1 x2 ;;
                  Ok (MultitaskKernel.Lazy l))
    2.

(** ** The rest of gpytorch/kernels/multitask_kernel.py *)

(** [x.exp()] needs the exponential of the scalar type. *)
Class Exponential (F : Type) : Type := {
  fexp : F -> F
}.

Section EvalCovarMatrix.

Context {F : Type} `{Scalar F} `{Exponential F}.

(** [x.exp()]: the exponential of every entry. *)
Definition exp (t : tensor F) : tensor F :=
  mkTensor (shape t) (map fexp (data t)).

(** [x.diag()]: a vector becomes the square matrix with the vector on its
    diagonal and zero elsewhere; a matrix becomes the vector of its diagonal;
    torch raises on anything else (reported here as [ShapeMismatch]). *)
Definition diag (t : tensor F) : result (tensor F) :=
  match shape t with
  | [n] =>
      Ok (tabulate [n; n] (fun idx =>
            if nth 0 idx 0 =? nth 1 idx 0 then entry t [nth 0 idx 0] else fzero))
  | [r; c] =>
      Ok (tabulate [Nat.min r c] (fun idx => entry t [nth 0 idx 0; nth 0 idx 0]))
  | _ => Err ShapeMismatch
  end.

(** [_eval_covar_matrix]:
    [covar_factor.matmul(covar_factor.transpose(-1, -2)) + log_var.exp().diag()]. *)
Definition _eval_covar_matrix (covar_factor log_var : tensor F) : result (tensor F) :=
  ft <- transpose covar_factor (-1) (-2) ;;
  p <- matmul covar_factor ft ;;
  d <- diag (exp log_var) ;;
  add p d.

End EvalCovarMatrix.

(** ** Further vocabulary *)

(** Laws of exact arithmetic that some theorems assume. *)
Definition fsub_zero (F : Type) `{Scalar F} : Prop :=
  forall a : F, fsub a fzero = a.

Definition fadd_zero (F : Type) `{Scalar F} : Prop :=
  forall a : F, fadd a fzero = a.

Arguments fsub_zero F {_}.
Arguments fadd_zero F {_}.

(** A multitask kernel whose data kernel is a linear kernel:
    [MultitaskKernel(LinearKernel(d), n_tasks)].  The data covariance is what
    [LinearKernel.forward] returns, a lazy matrix. *)
Definition multitask_of_linear {F : Type} `{Scalar F}
    (task : tensor Z -> result (LazyTensor F)) (lk : LinearKernel.t F) (n : nat)
  : MultitaskKernel.t F :=
  MultitaskKernel.mk task
    (fun x1 x2 => l <- LinearKernel.forward lk x1 x2 ;;
                  Ok (MultitaskKernel.Lazy l))
    n.



(** A stand-in for the exponential over the integers. *)
#[export] Instance Exponential_Z : Exponential Z := {
  fexp := fun z => (2 ^ z)%Z
}.



Definition ex_x1 : tensor Z := mkTensor [3] [1; 2; 3]%Z.
Definition ex_factor : tensor Z := mkTensor [2; 1] [1; 2]%Z.
Definition ex_log_var : tensor Z := mkTensor [2] [0; 1]%Z.
Definition ex_log_var1 : tensor Z := mkTensor [1] [3%Z].
Definition ex_log_var3 : tensor Z := mkTensor [3] [0; 1; 2]%Z.

(** A multitask kernel without tasks. *)
Definition ex_multitask0 : MultitaskKernel.t Z :=
  multitask_of_linear (fun _ => Ok (NonLazyVariable ex_task_covar)) ex_kernel 0.

(** * Facts about the tensor operations *)

(** ** The error monad *)

Lemma bind_ok (A B : Type) (c : result A) (k : A -> result B) (b : B) :
  bind c k = Ok b -> exists a, c = Ok a /\ k a = Ok b.
Proof.
  destruct c as [a|e]; simpl; intros Hk; [exists a; auto | discriminate].
Qed.

(** ** Row-major indexing *)

Lemma in_range_nil (idx : list nat) : in_range [] idx -> idx = [].
Proof. intros Hr; inversion Hr; reflexivity. Qed.

Lemma in_range_cons (n : nat) (s idx : list nat) :
  in_range (n :: s) idx ->
  exists i idx', idx = i :: idx' /\ i < n /\ in_range s idx'.
Proof.
  intros Hr; inversion Hr; subst.
  eexists; eexists; repeat split; eauto.
Qed.

Lemma in_range_length (s idx : list nat) :
  in_range s idx -> length idx = length s.
Proof. apply Forall2_length. Qed.

Lemma in_range3 (b n d i j k : nat) :
  i < b -> j < n -> k < d -> in_range [b; n; d] [i; j; k].
Proof. intros; repeat constructor; assumption. Qed.

Lemma in_range2 (n d i j : nat) :
  i < n -> j < d -> in_range [n; d] [i; j].
Proof. intros; repeat constructor; assumption. Qed.

Lemma length_indices (s : list nat) : length (indices s) = numel s.
Proof.
  induction s as [|n s IH]; simpl; [reflexivity|].
  assert (Hc : forall a, length (flat_map (fun i => map (cons i) (indices s)) (seq a n))
                         = n * numel s).
  { induction n as [|n IHn]; intros a; simpl; [reflexivity|].
    rewrite length_app, length_map, IH, IHn. reflexivity. }
  apply Hc.
Qed.

Lemma wf_tabulate (A : Type) (s : list nat) (f : list nat -> A) :
  wf (tabulate s f).
Proof. unfold wf, tabulate; simpl. rewrite length_map. apply length_indices. Qed.

Lemma flat_index_lt (s idx : list nat) :
  in_range s idx -> flat_index s idx < numel s.
Proof.
  revert idx; induction s as [|n s IH]; intros idx Hr.
  - apply in_range_nil in Hr; subst; simpl; lia.
  - apply in_range_cons in Hr. destruct Hr as (i & idx' & -> & Hi & Hr).
    specialize (IH _ Hr). simpl. nia.
Qed.

(** In a concatenation of chunks of equal length [m], position [i * m + j]
    is position [j] of chunk [i]. *)
Lemma nth_error_chunks (A : Type) (g : nat -> list A) (m : nat) :
  (forall x, length (g x) = m) ->
  forall n a i j, i < n -> j < m ->
  nth_error (flat_map g (seq a n)) (i * m + j) = nth_error (g (a + i)) j.
Proof.
  intros Hg; induction n as [|n IH]; intros a i j Hi Hj; [lia|].
  simpl. destruct i as [|i].
  - rewrite nth_error_app1 by (rewrite Hg; simpl; lia).
    simpl. rewrite Nat.add_0_r. reflexivity.
  - rewrite nth_error_app2 by (rewrite Hg; simpl; lia).
    rewrite Hg. replace (S i * m + j - m) with (i * m + j) by (simpl; lia).
    rewrite IH by lia. f_equal. f_equal. lia.
Qed.

Lemma nth_error_indices (s idx : list nat) :
  in_range s idx -> nth_error (indices s) (flat_index s idx) = Some idx.
Proof.
  revert idx; induction s as [|n s IH]; intros idx Hr.
  - apply in_range_nil in Hr; subst; reflexivity.
  - apply in_range_cons in Hr. destruct Hr as (i & idx' & -> & Hi & Hr).
    simpl.
    rewrite (nth_error_chunks _ (fun i => map (cons i) (indices s)) (numel s)).
    + simpl. rewrite nth_error_map, (IH _ Hr). reflexivity.
    + intros x. rewrite length_map. apply length_indices.
    + exact Hi.
    + apply flat_index_lt; exact Hr.
Qed.

Lemma entry_d_tabulate (A : Type) (d : A) (s idx : list nat) (f : list nat -> A) :
  in_range s idx -> entry_d d (tabulate s f) idx = f idx.
Proof.
  intros Hr. unfold entry_d, tabulate; simpl.
  apply nth_error_nth. apply map_nth_error. apply nth_error_indices; exact Hr.
Qed.

Section TorchFacts.

Context {F : Type} `{Scalar F}.

Lemma entry_tabulate (s idx : list nat) (f : list nat -> F) :
  in_range s idx -> entry (tabulate s f) idx = f idx.
Proof. apply entry_d_tabulate. Qed.

Lemma dot_ext (k : nat) (f g f' g' : nat -> F) :
  (forall kk, kk < k -> fmul (f kk) (g kk) = fmul (f' kk) (g' kk)) ->
  dot k f g = dot k f' g'.
Proof.
  unfold dot. generalize (@fzero F _).
  assert (Hs : forall a n acc,
             (forall kk, a <= kk < a + n ->
                         fmul (f kk) (g kk) = fmul (f' kk) (g' kk)) ->
             fold_left (fun acc kk => fadd acc (fmul (f kk) (g kk))) (seq a n) acc =
             fold_left (fun acc kk => fadd acc (fmul (f' kk) (g' kk))) (seq a n) acc).
  { intros a n; revert a; induction n as [|n IH]; intros a acc Hk; simpl.
    - reflexivity.
    - rewrite Hk by lia. apply IH. intros kk Hkk. apply Hk. lia. }
  intros acc Hk. apply Hs. intros kk Hkk. apply Hk. lia.
Qed.

(** [torch.equal] decides equality of the operands when [==] is sound. *)
Lemma all_eqb_eq (l1 l2 : list F) :
  feqb_sound F -> all_eqb l1 l2 = true -> l1 = l2.
Proof.
  intros Hs. revert l2; induction l1 as [|a l1 IH]; intros [|b l2] He;
    simpl in He; try discriminate; [reflexivity|].
  apply andb_true_iff in He. destruct He as [Hab He].
  f_equal; [apply Hs, Hab | apply IH, He].
Qed.

Lemma size_eqb_eq (s1 s2 : list nat) : size_eqb s1 s2 = true <-> s1 = s2.
Proof.
  unfold size_eqb. destruct (list_eq_dec Nat.eq_dec s1 s2); split; intros;
    try reflexivity; try assumption; try discriminate; contradiction.
Qed.

Lemma size_eqb_refl (s : list nat) : size_eqb s s = true.
Proof. apply size_eqb_eq; reflexivity. Qed.

Lemma equal_eq (x y : tensor F) :
  feqb_sound F -> equal x y = true -> x = y.
Proof.
  intros Hs He. unfold equal in He. apply andb_true_iff in He.
  destruct He as [Hsz Hd]. apply size_eqb_eq in Hsz. apply (all_eqb_eq _ _ Hs) in Hd.
  destruct x, y; simpl in *; subst; reflexivity.
Qed.

(** The elementwise reading of [torch.equal]. *)
Lemma all_eqb_Forall2 (l1 l2 : list F) :
  all_eqb l1 l2 = true <-> Forall2 (fun a b => feqb a b = true) l1 l2.
Proof.
  revert l2; induction l1 as [|a l1 IH]; intros [|b l2]; simpl; split; intros He;
    try discriminate; try constructor; try (inversion He; fail).
  - apply andb_true_iff in He; tauto.
  - apply IH. apply andb_true_iff in He; tauto.
  - inversion He; subst. apply andb_true_iff; split; [assumption | apply IH; assumption].
Qed.

End TorchFacts.

(** ** The operations on small tensors *)

Example sub_broadcasts_offset :
  sub ex_x23 (LinearKernel.offset ex_kernel)
  = Ok (mkTensor [1; 2; 3] [0; 0; 0; 3; 3; 3]%Z).
Proof. reflexivity. Qed.

Example transpose_2_1 :
  transpose ex_x123 2 1 = Ok (mkTensor [1; 3; 2] [1; 4; 2; 5; 3; 6]%Z).
Proof. reflexivity. Qed.

Example matmul_batched :
  matmul (mkTensor [1; 2; 3] [1; 2; 3; 4; 5; 6]%Z)
         (mkTensor [1; 3; 2] [1; 4; 2; 5; 3; 6]%Z)
  = Ok (mkTensor [1; 2; 2] [14; 32; 32; 77]%Z).
Proof. reflexivity. Qed.

Example matmul_matrix_vector :
  matmul ex_x23 (mkTensor [3] [1; 0; 2]%Z) = Ok (mkTensor [2] [7; 16]%Z).
Proof. reflexivity. Qed.

Example expand_scalar :
  expand (mkTensor [1] [10%Z]) [1; 2; 2]
  = Ok (mkTensor [1; 2; 2] [10; 10; 10; 10]%Z).
Proof. reflexivity. Qed.

Example kron_blocks_2x2 :
  kron ex_task_covar (mkTensor [1; 2] [1; 3]%Z)
  = Ok (mkTensor [2; 4] [2; 6; 1; 3; 1; 3; 2; 6]%Z).
Proof. reflexivity. Qed.

Example forward_on_equal_inputs :
  LinearKernel.forward ex_kernel ex_x23 ex_x23
  = Ok (SumLazyTensor
          (RootLazyTensor (mkTensor [1; 2; 3] [0; 0; 0; 3; 3; 3]%Z))
          (mkTensor [1; 2; 2] [10; 10; 10; 10]%Z)).
Proof. reflexivity. Qed.

(** ** Shapes of three dimensions *)

Lemma broadcast_same (s : list nat) : broadcast_shapes s s = Some s.
Proof.
  unfold broadcast_shapes.
  assert (Hr : forall r, broadcast_rev r r = Some r).
  { induction r as [|a r IH]; simpl; [reflexivity|].
    rewrite Nat.eqb_refl, IH. reflexivity. }
  rewrite Hr. simpl. rewrite rev_involutive. reflexivity.
Qed.

Lemma broadcast_offset3 (b n d : nat) :
  broadcast_shapes [b; n; d] [1; 1; d] = Some [b; n; d].
Proof.
  unfold broadcast_shapes. simpl. rewrite Nat.eqb_refl.
  destruct (n =? 1) eqn:Hn; [apply Nat.eqb_eq in Hn; subst|];
    (destruct (b =? 1) eqn:Hb; [apply Nat.eqb_eq in Hb; subst|]); reflexivity.
Qed.

Lemma broadcast_offset2 (n d : nat) :
  broadcast_shapes [n; d] [1; 1; d] = Some [1; n; d].
Proof.
  unfold broadcast_shapes. simpl. rewrite Nat.eqb_refl.
  destruct (n =? 1) eqn:Hn; [apply Nat.eqb_eq in Hn; subst|]; reflexivity.
Qed.

Lemma broadcast_offset_mismatch (d : nat) (s : list nat) :
  last_dim_mismatch d s -> broadcast_shapes s [1; 1; d] = None.
Proof.
  intros (s0 & e & -> & Hed & He1 & Hd1).
  unfold broadcast_shapes. rewrite rev_app_distr. simpl.
  apply Nat.eqb_neq in Hed, He1, Hd1. rewrite Hed, He1, Hd1. reflexivity.
Qed.

Lemma bidx_in_range (s idx : list nat) : in_range s idx -> bidx s idx = idx.
Proof.
  intros Hr. unfold bidx. rewrite (in_range_length _ _ Hr), Nat.sub_diag. simpl.
  induction Hr as [|i n idx s Hi Hr IH]; simpl; [reflexivity|].
  rewrite IH. destruct (n =? 1) eqn:Hn; [|reflexivity].
  apply Nat.eqb_eq in Hn. f_equal. lia.
Qed.

Lemma bidx_offset (d bi i kk : nat) : kk < d -> bidx [1; 1; d] [bi; i; kk] = [0; 0; kk].
Proof.
  intros Hk. unfold bidx. simpl. destruct (d =? 1) eqn:Hd; [|reflexivity].
  apply Nat.eqb_eq in Hd. repeat f_equal. lia.
Qed.

Lemma bidx_drop_batch (n d bi i kk : nat) :
  i < n -> kk < d -> bidx [n; d] [bi; i; kk] = [i; kk].
Proof.
  intros Hi Hk. change (bidx [n; d] [bi; i; kk]) with (bidx [n; d] [i; kk]).
  apply bidx_in_range, in_range2; assumption.
Qed.

(** ** The tensor operations on the shapes the kernels meet *)

Section Rank3.

Context {F : Type} `{Scalar F}.

(** Centering: [x - offset] has three dimensions, also when [x] has two. *)
Lemma sub_offset_ok (o x : tensor F) (b n d : nat) :
  shape o = [1; 1; d] -> batched x b n d ->
  exists c, sub x o = Ok c /\ shape c = [b; n; d] /\ wf c /\
    forall bi i kk, bi < b -> i < n -> kk < d ->
      entry c [bi; i; kk] = fsub (row_entry x bi i kk) (entry o [0; 0; kk]).
Proof.
  intros Ho [Hx | [-> Hx]]; unfold sub, broadcast_op; rewrite Hx, Ho.
  - rewrite broadcast_offset3. eexists; split; [reflexivity|].
    split; [reflexivity|]. split; [apply wf_tabulate|].
    intros bi i kk Hb Hi Hk.
    rewrite entry_tabulate by (apply in_range3; assumption).
    rewrite bidx_in_range by (apply in_range3; assumption).
    rewrite bidx_offset by assumption.
    unfold row_entry, ndimension. rewrite Hx. reflexivity.
  - rewrite broadcast_offset2. eexists; split; [reflexivity|].
    split; [reflexivity|]. split; [apply wf_tabulate|].
    intros bi i kk Hb Hi Hk.
    rewrite entry_tabulate by (apply in_range3; assumption).
    rewrite bidx_drop_batch by assumption.
    rewrite bidx_offset by assumption.
    unfold row_entry, ndimension. rewrite Hx. reflexivity.
Qed.

Lemma sub_offset_mismatch (o x : tensor F) (d : nat) :
  shape o = [1; 1; d] -> last_dim_mismatch d (shape x) ->
  sub x o = Err BroadcastError.
Proof.
  intros Ho Hx. unfold sub, broadcast_op.
  rewrite Ho, (broadcast_offset_mismatch _ _ Hx). reflexivity.
Qed.

Lemma sub_err (x o : tensor F) (e : error) : sub x o = Err e -> e = BroadcastError.
Proof.
  unfold sub, broadcast_op.
  destruct (broadcast_shapes (shape x) (shape o)); intros He; congruence.
Qed.

(** On three dimensions [transpose(2, 1)] is the transposition of the
    trailing matrices, [transpose(-1, -2)]. *)
Lemma transpose21 (c : tensor F) (b n d : nat) :
  shape c = [b; n; d] ->
  exists ct, transpose c 2 1 = Ok ct /\ transpose c (-1) (-2) = Ok ct /\
    shape ct = [b; d; n] /\ wf ct /\
    forall bi kk j, bi < b -> kk < d -> j < n ->
      entry ct [bi; kk; j] = entry c [bi; j; kk].
Proof.
  intros Hc. unfold transpose, ndimension. rewrite Hc.
  eexists; split; [reflexivity|]. split; [reflexivity|].
  split; [reflexivity|]. split; [apply wf_tabulate|].
  intros bi kk j Hb Hk Hj.
  change (swap_dims [b; n; d] (Z.to_nat 2) (Z.to_nat 1)) with [b; d; n].
  rewrite entry_tabulate by (apply in_range3; assumption).
  reflexivity.
Qed.

Lemma matmul_shape3 (b n1 d n2 : nat) :
  matmul_shape [b; n1; d] [b; d; n2] = Ok [b; n1; n2].
Proof.
  unfold matmul_shape. simpl. rewrite Nat.eqb_refl.
  change [b] with (firstn 1 [b]) at 1. rewrite broadcast_same. reflexivity.
Qed.

Lemma matmul3 (a m : tensor F) (b n1 d n2 : nat) :
  shape a = [b; n1; d] -> shape m = [b; d; n2] ->
  exists p, matmul2 a m = Ok p /\ matmul a m = Ok p /\
    shape p = [b; n1; n2] /\ wf p /\
    forall bi i j, bi < b -> i < n1 -> j < n2 ->
      entry p [bi; i; j] =
      dot d (fun kk => entry a [bi; i; kk]) (fun kk => entry m [bi; kk; j]).
Proof.
  intros Ha Hm.
  assert (H2 : matmul2 a m = Ok (tabulate [b; n1; n2] (matmul_entry a m))).
  { unfold matmul2. rewrite Ha, Hm, matmul_shape3. reflexivity. }
  exists (tabulate [b; n1; n2] (matmul_entry a m)).
  split; [exact H2|]. split.
  { unfold matmul, ndimension. rewrite Ha, Hm. simpl. exact H2. }
  split; [reflexivity|]. split; [apply wf_tabulate|].
  intros bi i j Hb Hi Hj.
  rewrite entry_tabulate by (apply in_range3; assumption).
  unfold matmul_entry, ndimension. rewrite Ha, Hm.
  change (dot d (fun kk => entry a (bidx [b] [bi] ++ [i; kk]))
                (fun kk => entry m (bidx [b] [bi] ++ [kk; j])) =
          dot d (fun kk => entry a [bi; i; kk]) (fun kk => entry m [bi; kk; j])).
  rewrite (bidx_in_range [b] [bi]) by (repeat constructor; assumption).
  reflexivity.
Qed.

Lemma expand_variance (v : tensor F) (b n1 n2 : nat) :
  shape v = [1] ->
  exists e, expand v [b; n1; n2] = Ok e /\ shape e = [b; n1; n2] /\ wf e /\
    forall bi i j, bi < b -> i < n1 -> j < n2 -> entry e [bi; i; j] = entry v [0].
Proof.
  intros Hv. unfold expand. rewrite Hv. simpl. rewrite orb_true_r. simpl.
  eexists; split; [reflexivity|]. split; [reflexivity|].
  split; [apply wf_tabulate|].
  intros bi i j Hb Hi Hj.
  rewrite entry_tabulate by (apply in_range3; assumption).
  reflexivity.
Qed.

Lemma add_same (m e : tensor F) (s : list nat) :
  shape m = s -> shape e = s ->
  exists r, add m e = Ok r /\ shape r = s /\ wf r /\
    forall idx, in_range s idx -> entry r idx = fadd (entry m idx) (entry e idx).
Proof.
  intros Hm He. unfold add, broadcast_op. rewrite Hm, He, broadcast_same.
  eexists; split; [reflexivity|]. split; [reflexivity|].
  split; [apply wf_tabulate|].
  intros idx Hr. rewrite entry_tabulate by exact Hr.
  rewrite bidx_in_range by exact Hr. reflexivity.
Qed.

End Rank3.

(** ** The lazy forms the linear kernel builds *)

Section LinearForms.

Context {F : Type} `{Scalar F}.

(** The matmul form of two centered tensors, the second transposed by
    [transpose(2, 1)]; when the two are the same tensor, the root form
    materializes to the same matrix. *)
Lemma product_eval (c1 c2 : tensor F) (b n1 n2 d : nat) :
  shape c1 = [b; n1; d] -> shape c2 = [b; n2; d] ->
  exists c2t m,
    transpose c2 2 1 = Ok c2t /\ transpose c2 (-1) (-2) = Ok c2t /\
    lazy_size (MatmulLazyTensor c1 c2t) = Ok [b; n1; n2] /\
    evaluate (MatmulLazyTensor c1 c2t) = Ok m /\
    (c1 = c2 -> lazy_size (RootLazyTensor c1) = Ok [b; n1; n2] /\
                evaluate (RootLazyTensor c1) = Ok m) /\
    shape m = [b; n1; n2] /\ wf m /\
    forall bi i j, bi < b -> i < n1 -> j < n2 ->
      entry m [bi; i; j] =
      dot d (fun kk => entry c1 [bi; i; kk]) (fun kk => entry c2 [bi; j; kk]).
Proof.
  intros H1 H2.
  destruct (transpose21 c2 _ _ _ H2) as (c2t & Ht & Ht' & Hst & _ & Het).
  destruct (matmul3 c1 c2t _ _ _ _ H1 Hst) as (m & Hm & _ & Hsm & Hwm & Hem).
  exists c2t, m. split; [exact Ht|]. split; [exact Ht'|]. split.
  { simpl. rewrite H1, Hst. apply matmul_shape3. }
  split; [exact Hm|]. split.
  { intros ->. assert (n1 = n2) by congruence. subst n2. split.
    - simpl. rewrite H2. apply matmul_shape3.
    - simpl. rewrite Ht'. exact Hm. }
  split; [exact Hsm|]. split; [exact Hwm|].
  intros bi i j Hb Hi Hj. rewrite Hem by assumption.
  apply dot_ext. intros kk Hk. rewrite Het by assumption. reflexivity.
Qed.

(** Adding the variance, expanded to the size of the product. *)
Lemma plus_variance (prod : LazyTensor F) (v m : tensor F) (b n1 n2 : nat) :
  lazy_size prod = Ok [b; n1; n2] -> evaluate prod = Ok m ->
  shape m = [b; n1; n2] -> shape v = [1] ->
  exists e r,
    expand v [b; n1; n2] = Ok e /\
    lazy_add prod e = Ok (SumLazyTensor prod e) /\
    shape e = [b; n1; n2] /\
    evaluate (SumLazyTensor prod e) = Ok r /\
    shape r = [b; n1; n2] /\ wf r /\
    forall bi i j, bi < b -> i < n1 -> j < n2 ->
      entry r [bi; i; j] = fadd (entry m [bi; i; j]) (entry v [0]).
Proof.
  intros Hsz Hev Hsm Hv.
  destruct (expand_variance v b n1 n2 Hv) as (e & He & Hse & _ & Hee).
  destruct (add_same m e _ Hsm Hse) as (r & Hr & Hsr & Hwr & Her).
  exists e, r. split; [exact He|]. split.
  { unfold lazy_add. rewrite Hsz. simpl. rewrite Hse, broadcast_same, size_eqb_refl.
    reflexivity. }
  split; [exact Hse|]. split.
  { simpl. rewrite Hev. simpl. exact Hr. }
  split; [exact Hsr|]. split; [exact Hwr|].
  intros bi i j Hb Hi Hj.
  rewrite Her by (apply in_range3; assumption).
  rewrite Hee by assumption. reflexivity.
Qed.

Lemma batched_same_shape (x1 x2 : tensor F) (b n1 n2 d : nat) :
  batched x1 b n1 d -> batched x2 b n2 d -> shape x1 = shape x2 -> n1 = n2.
Proof.
  intros [H1 | [_ H1]] [H2 | [_ H2]] He; rewrite H1, H2 in He; congruence.
Qed.

(** What [forward] does on inputs of two or three dimensions.  [x2'] is
    the input whose centered tensor is the second factor of the product:
    [x1] itself on the root branch. *)
Lemma forward_batched (k : LinearKernel.t F) (d b n1 n2 : nat) (x1 x2 : tensor F) :
  LinearKernel.registered k d -> batched x1 b n1 d -> batched x2 b n2 d ->
  let root := size_eqb (shape x1) (shape x2) && equal x1 x2 in
  let x2' := if root then x1 else x2 in
  exists c1 c2 prod e r,
    sub x1 (LinearKernel.offset k) = Ok c1 /\ shape c1 = [b; n1; d] /\
    sub x2 (LinearKernel.offset k) = Ok c2 /\ shape c2 = [b; n2; d] /\
    ((root = true /\ n1 = n2 /\ prod = RootLazyTensor c1) \/
     (root = false /\ exists c2t, transpose c2 2 1 = Ok c2t /\
        shape c2t = [b; d; n2] /\ prod = MatmulLazyTensor c1 c2t)) /\
    LinearKernel.forward k x1 x2 = Ok (SumLazyTensor prod e) /\
    shape e = [b; n1; n2] /\
    lazy_size (SumLazyTensor prod e) = Ok [b; n1; n2] /\
    evaluate (SumLazyTensor prod e) = Ok r /\
    linear_kernel_dense (LinearKernel.offset k) (LinearKernel.variance k)
                        x1 x2' = Ok r /\
    shape r = [b; n1; n2] /\ wf r /\
    forall bi i j, bi < b -> i < n1 -> j < n2 ->
      entry r [bi; i; j] =
      linear_kernel_entry (LinearKernel.offset k) (LinearKernel.variance k)
                          x1 x2' d bi i j.
Proof.
  intros (Hv & _ & Ho & _) Hx1 Hx2 root x2'.
  destruct (sub_offset_ok _ _ _ _ _ Ho Hx1) as (c1 & Hc1 & Hs1 & _ & He1).
  destruct (sub_offset_ok _ _ _ _ _ Ho Hx2) as (c2 & Hc2 & Hs2 & _ & He2).
  assert (Hn : root = true -> n1 = n2).
  { intros Hroot. subst root. apply andb_true_iff in Hroot.
    destruct Hroot as [Hsz _]. apply size_eqb_eq in Hsz.
    exact (batched_same_shape _ _ _ _ _ _ Hx1 Hx2 Hsz). }
  destruct (product_eval c1 (if root then c1 else c2) b n1 n2 d Hs1)
    as (c2t & m & Ht & Ht' & Hszm & Hevm & Hroot & Hsm & _ & Hem).
  { destruct root; [|exact Hs2]. rewrite <- (Hn eq_refl). exact Hs1. }
  assert (Hprod : exists prod,
             ((root = true /\ n1 = n2 /\ prod = RootLazyTensor c1) \/
              (root = false /\ exists c2t, transpose c2 2 1 = Ok c2t /\
                 shape c2t = [b; d; n2] /\ prod = MatmulLazyTensor c1 c2t)) /\
             (if root then LinearKernel.root_branch k x1
              else LinearKernel.matmul_branch k x1 x2) = Ok prod /\
             lazy_size prod = Ok [b; n1; n2] /\ evaluate prod = Ok m).
  { destruct root eqn:Hr.
    - exists (RootLazyTensor c1).
      destruct (Hroot eq_refl) as [Hsr Her].
      unfold LinearKernel.root_branch. rewrite Hc1. simpl. auto 10.
    - exists (MatmulLazyTensor c1 c2t).
      destruct (transpose21 c2 _ _ _ Hs2) as (ct & Hct & _ & Hsct & _).
      assert (ct = c2t) by congruence. subst ct.
      unfold LinearKernel.matmul_branch. rewrite Hc1, Hc2. simpl. rewrite Ht.
      simpl. split; [right; eauto 10 | auto]. }
  destruct Hprod as (prod & Hform & Hbranch & Hszp & Hevp).
  destruct (plus_variance prod _ m b n1 n2 Hszp Hevp Hsm Hv)
    as (e & r & Hexp & Hadd & Hse & Hevr & Hsr & Hwr & Her).
  exists c1, c2, prod, e, r.
  split; [exact Hc1|]. split; [exact Hs1|].
  split; [exact Hc2|]. split; [exact Hs2|].
  split; [exact Hform|]. split.
  { unfold LinearKernel.forward. fold root. rewrite Hbranch. simpl.
    rewrite Hszp. simpl. rewrite Hexp. simpl. exact Hadd. }
  split; [exact Hse|].
  split; [simpl; exact Hszp|]. split; [exact Hevr|]. split.
  { unfold linear_kernel_dense. rewrite Hc1. simpl.
    assert (Hc2' : sub x2' (LinearKernel.offset k)
                   = Ok (if root then c1 else c2)).
    { subst x2'. destruct root; assumption. }
    rewrite Hc2'. simpl. rewrite Ht'. simpl.
    simpl in Hevm. rewrite Hevm. simpl. rewrite Hsm, Hexp. simpl.
    simpl in Hevr. rewrite Hevp in Hevr. exact Hevr. }
  split; [exact Hsr|]. split; [exact Hwr|].
  intros bi i j Hb Hi Hj. rewrite Her, Hem by assumption.
  unfold linear_kernel_entry. f_equal.
  apply dot_ext. intros kk Hk. rewrite He1 by assumption.
  subst x2'. destruct root.
  - rewrite He1 by (rewrite ?(Hn eq_refl); assumption). reflexivity.
  - rewrite He2 by assumption. reflexivity.
Qed.

End LinearForms.

(** ** Extensionality of tensors *)

Lemma flat_index_surj (s : list nat) (p : nat) :
  p < numel s -> exists idx, in_range s idx /\ flat_index s idx = p.
Proof.
  revert p; induction s as [|n s IH]; intros p Hp; simpl in Hp.
  - exists []. split; [constructor | simpl; lia].
  - assert (Hm : 0 < numel s) by (destruct (numel s); lia).
    destruct (IH (p mod numel s)) as (idx & Hr & Hi).
    { apply Nat.mod_upper_bound. lia. }
    exists (p / numel s :: idx). split.
    + constructor; [|exact Hr]. apply Nat.Div0.div_lt_upper_bound. lia.
    + simpl. rewrite Hi. pose proof (Nat.div_mod_eq p (numel s)). lia.
Qed.

Lemma tensor_ext (F : Type) `{Scalar F} (t1 t2 : tensor F) :
  shape t1 = shape t2 -> wf t1 -> wf t2 ->
  (forall idx, in_range (shape t1) idx -> entry t1 idx = entry t2 idx) ->
  t1 = t2.
Proof.
  destruct t1 as [s1 d1], t2 as [s2 d2]. unfold wf, entry, entry_d. simpl.
  intros <- Hw1 Hw2 He. f_equal.
  apply (nth_ext _ _ fzero fzero); [congruence|].
  intros p Hp. rewrite Hw1 in Hp.
  destruct (flat_index_surj s1 p Hp) as (idx & Hr & <-).
  apply He, Hr.
Qed.

Lemma Z_feqb_sound : feqb_sound Z.
Proof. intros a b Hab. apply Z.eqb_eq, Hab. Qed.

Lemma Z_fmul_comm : fmul_comm Z.
Proof. intros a b. apply Z.mul_comm. Qed.

(** ** Any number of batch dimensions *)

Lemma swap_last2 (l0 : list nat) (a b : nat) :
  swap_dims (l0 ++ [a; b]) (length l0 + 1) (length l0) = l0 ++ [b; a].
Proof.
  unfold swap_dims.
  apply (nth_ext _ _ 0 0).
  { rewrite length_map, length_seq, !length_app. reflexivity. }
  intros p Hp. rewrite length_map, length_seq, length_app in Hp. simpl in Hp.
  set (f := fun k => nth (if k =? length l0 + 1 then length l0
                          else if k =? length l0 then length l0 + 1 else k)
                         (l0 ++ [a; b]) 0).
  rewrite (nth_indep _ 0 (f 0)) by (rewrite length_map, length_seq, length_app; simpl; lia).
  rewrite (map_nth f), seq_nth by (rewrite length_app; simpl; lia).
  subst f. simpl.
  destruct (Nat.eqb_spec p (length l0 + 1)) as [-> | H1].
  - rewrite nth_middle. rewrite app_nth2 by lia.
    replace (length l0 + 1 - length l0) with 1 by lia. reflexivity.
  - destruct (Nat.eqb_spec p (length l0)) as [-> | H2].
    + rewrite nth_middle. rewrite app_nth2 by lia.
      replace (length l0 + 1 - length l0) with 1 by lia. reflexivity.
    + rewrite !app_nth1 by lia. reflexivity.
Qed.

Lemma norm_dim_last (n : nat) : norm_dim (n + 2) (-1) = Some (n + 1).
Proof.
  unfold norm_dim. simpl ((0 <=? -1)%Z && _).
  replace ((- Z.of_nat (n + 2) <=? -1) && (-1 <? 0))%Z with true
    by (symmetry; apply andb_true_iff; split; [apply Z.leb_le; lia | reflexivity]).
  f_equal. lia.
Qed.

Lemma norm_dim_before_last (n : nat) : norm_dim (n + 2) (-2) = Some n.
Proof.
  unfold norm_dim. simpl ((0 <=? -2)%Z && _).
  replace ((- Z.of_nat (n + 2) <=? -2) && (-2 <? 0))%Z with true
    by (symmetry; apply andb_true_iff; split; [apply Z.leb_le; lia | reflexivity]).
  f_equal. lia.
Qed.

Lemma in_range_app (s1 s2 i1 i2 : list nat) :
  in_range s1 i1 -> in_range s2 i2 -> in_range (s1 ++ s2) (i1 ++ i2).
Proof. apply Forall2_app. Qed.

Lemma in_range_last2_inv (bs : list nat) (n m : nat) (idx : list nat) :
  in_range (bs ++ [n; m]) idx ->
  exists bi i j, idx = bi ++ [i; j] /\ in_range bs bi /\ i < n /\ j < m.
Proof.
  intros Hr. apply Forall2_app_inv_r in Hr.
  destruct Hr as (bi & l2 & Hb & H2 & ->).
  apply in_range_cons in H2. destruct H2 as (i & l3 & -> & Hi & H3).
  apply in_range_cons in H3. destruct H3 as (j & l4 & -> & Hj & H4).
  apply in_range_nil in H4. subst. exists bi, i, j. auto.
Qed.

Lemma in_range_last2 (bs bi : list nat) (n m i j : nat) :
  in_range bs bi -> i < n -> j < m -> in_range (bs ++ [n; m]) (bi ++ [i; j]).
Proof.
  intros Hb Hi Hj. apply in_range_app; [exact Hb | apply in_range2; assumption].
Qed.

Lemma last2_exists (l : list nat) :
  2 <= length l -> exists l0 a b, l = l0 ++ [a; b].
Proof.
  intros Hl.
  destruct (exists_last (l:=l)) as (l1 & b & ->); [destruct l; simpl in *; [lia | discriminate]|].
  rewrite length_app in Hl. simpl in Hl.
  destruct (exists_last (l:=l1)) as (l0 & a & ->); [destruct l1; simpl in *; [lia | discriminate]|].
  exists l0, a, b. rewrite <- app_assoc. reflexivity.
Qed.

Lemma broadcast_rev_length (r1 r2 r : list nat) :
  broadcast_rev r1 r2 = Some r -> length r = Nat.max (length r1) (length r2).
Proof.
  revert r2 r; induction r1 as [|a r1 IH]; intros [|b r2] r Hr; simpl in Hr.
  - injection Hr as <-. reflexivity.
  - injection Hr as <-. reflexivity.
  - injection Hr as <-. reflexivity.
  - destruct (broadcast_rev r1 r2) as [r'|] eqn:Hr'.
    + specialize (IH _ _ Hr'). simpl in Hr.
      destruct (a =? b); [|destruct (a =? 1); [|destruct (b =? 1)]];
        try discriminate; injection Hr as <-; simpl; lia.
    + simpl in Hr.
      destruct (a =? b); [|destruct (a =? 1); [|destruct (b =? 1)]]; discriminate.
Qed.

Lemma broadcast_length (s1 s2 s : list nat) :
  broadcast_shapes s1 s2 = Some s -> length s = Nat.max (length s1) (length s2).
Proof.
  unfold broadcast_shapes.
  destruct (broadcast_rev (rev s1) (rev s2)) as [r|] eqn:Hr; [|discriminate].
  intros Hs. injection Hs as <-. apply broadcast_rev_length in Hr.
  rewrite !length_rev in *. exact Hr.
Qed.

Lemma bidx_one (idx : list nat) : idx <> [] -> bidx [1] idx = [0].
Proof.
  intros Hne. destruct (exists_last Hne) as (l & x & ->).
  unfold bidx. rewrite length_app. simpl.
  replace (length l + 1 - 1) with (length l) by lia.
  rewrite skipn_app, skipn_all, Nat.sub_diag. reflexivity.
Qed.

Lemma nth_after_middle (l : list nat) (a b : nat) :
  nth (S (length l)) (l ++ [a; b]) 0 = b.
Proof.
  rewrite app_nth2 by lia. replace (S (length l) - length l) with 1 by lia.
  reflexivity.
Qed.

Lemma firstn_prefix (l l' : list nat) : firstn (length l) (l ++ l') = l.
Proof.
  rewrite firstn_app, firstn_all, Nat.sub_diag. simpl. apply app_nil_r.
Qed.

Section AnyRank.

Context {F : Type} `{Scalar F}.

Lemma transpose_last2 (c : tensor F) (bs : list nat) (n e : nat) :
  shape c = bs ++ [n; e] ->
  exists ct, transpose c (-1) (-2) = Ok ct /\
    transpose_shape (shape c) (-1) (-2) = Ok (bs ++ [e; n]) /\
    shape ct = bs ++ [e; n] /\ wf ct /\
    forall bi kk j, in_range bs bi -> kk < e -> j < n ->
      entry ct (bi ++ [kk; j]) = entry c (bi ++ [j; kk]).
Proof.
  intros Hc. unfold transpose, transpose_shape, ndimension. rewrite Hc.
  rewrite length_app. simpl length.
  rewrite norm_dim_last, norm_dim_before_last, swap_last2.
  eexists; split; [reflexivity|]. split; [reflexivity|].
  split; [reflexivity|]. split; [apply wf_tabulate|].
  intros bi kk j Hb Hk Hj.
  rewrite entry_tabulate by (apply in_range_last2; assumption).
  rewrite <- (in_range_length _ _ Hb), swap_last2. reflexivity.
Qed.

Lemma matmul_shape_last2 (bs : list nat) (n e p : nat) :
  matmul_shape (bs ++ [n; e]) (bs ++ [e; p]) = Ok (bs ++ [n; p]).
Proof.
  unfold matmul_shape. rewrite !length_app. simpl length.
  replace (length bs + 2 <? 2) with false by (symmetry; apply Nat.ltb_ge; lia).
  simpl orb. cbv iota.
  replace (length bs + 2 - 1) with (S (length bs)) by lia.
  replace (length bs + 2 - 2) with (length bs) by lia.
  rewrite !nth_middle, !nth_after_middle, Nat.eqb_refl, !firstn_prefix,
    broadcast_same.
  reflexivity.
Qed.

Lemma matmul_last2 (a m : tensor F) (bs : list nat) (n e p : nat) :
  shape a = bs ++ [n; e] -> shape m = bs ++ [e; p] ->
  exists r, matmul2 a m = Ok r /\ shape r = bs ++ [n; p] /\ wf r /\
    forall bi i j, in_range bs bi -> i < n -> j < p ->
      entry r (bi ++ [i; j]) =
      dot e (fun kk => entry a (bi ++ [i; kk])) (fun kk => entry m (bi ++ [kk; j])).
Proof.
  intros Ha Hm. unfold matmul2. rewrite Ha, Hm, matmul_shape_last2. simpl.
  eexists; split; [reflexivity|]. split; [reflexivity|].
  split; [apply wf_tabulate|].
  intros bi i j Hb Hi Hj.
  rewrite entry_tabulate by (apply in_range_last2; assumption).
  unfold matmul_entry, ndimension. rewrite Ha, Hm, !length_app. simpl length.
  replace (length bs + 2 - 1) with (S (length bs)) by lia.
  replace (length bs + 2 - 2) with (length bs) by lia.
  replace (length bi + 2 - 2) with (length bi) by lia.
  rewrite nth_after_middle, !firstn_prefix, nth_middle, nth_after_middle.
  rewrite (bidx_in_range bs bi Hb). reflexivity.
Qed.

Lemma expand_one (v : tensor F) (s : list nat) :
  shape v = [1] -> s <> [] ->
  exists e, expand v s = Ok e /\ shape e = s /\ wf e /\
    forall idx, in_range s idx -> entry e idx = entry v [0].
Proof.
  intros Hv Hs. unfold expand. rewrite Hv.
  destruct (exists_last Hs) as (s0 & x & ->).
  rewrite rev_app_distr. simpl. rewrite orb_true_r. simpl.
  eexists; split; [reflexivity|]. split; [reflexivity|].
  split; [apply wf_tabulate|].
  intros idx Hr. rewrite entry_tabulate by exact Hr.
  rewrite bidx_one; [reflexivity|].
  intros ->. apply in_range_length in Hr. rewrite length_app in Hr.
  simpl in Hr. lia.
Qed.

(** The root form of a tensor with at least two dimensions materializes to
    a symmetric matrix, whatever its batch dimensions. *)
Lemma root_eval_any (c : tensor F) (bs : list nat) (n e : nat) :
  shape c = bs ++ [n; e] ->
  exists m,
    lazy_size (RootLazyTensor c) = Ok (bs ++ [n; n]) /\
    evaluate (RootLazyTensor c) = Ok m /\
    shape m = bs ++ [n; n] /\ wf m /\
    forall bi i j, in_range bs bi -> i < n -> j < n ->
      entry m (bi ++ [i; j]) =
      dot e (fun kk => entry c (bi ++ [i; kk])) (fun kk => entry c (bi ++ [j; kk])).
Proof.
  intros Hc.
  destruct (transpose_last2 c bs n e Hc) as (ct & Ht & Hts & Hsct & _ & Hect).
  destruct (matmul_last2 c ct bs n e n Hc Hsct) as (m & Hm & Hsm & Hwm & Hem).
  exists m. split.
  { simpl. rewrite Hts. simpl. rewrite Hc. apply matmul_shape_last2. }
  split; [simpl; rewrite Ht; simpl; exact Hm|].
  split; [exact Hsm|]. split; [exact Hwm|].
  intros bi i j Hb Hi Hj. rewrite Hem by assumption.
  apply dot_ext. intros kk Hk. rewrite Hect by assumption. reflexivity.
Qed.

End AnyRank.

(** * The linear kernel *)

Section LinearKernelTheorems.

Context {F : Type} `{Scalar F}.

(** C1, as amended.  On inputs with at most one batch dimension ([n1] and
    [n2] vectors of [d] coordinates, one matrix each or [b] of them),
    [forward] returns a lazy matrix, and materializing it gives exactly the
    dense tensor [(x1 - o)(x2 - o)ᵗ + v]: it has shape [(b, n1, n2)] and its
    entries are the products of the centered vectors plus the variance, the
    same [v] at every entry. *)
Theorem forward_materializes_linear_kernel
    (k : LinearKernel.t F) (d b n1 n2 : nat) (x1 x2 : tensor F) :
  feqb_sound F ->
  LinearKernel.registered k d -> batched x1 b n1 d -> batched x2 b n2 d ->
  exists l m,
    LinearKernel.forward k x1 x2 = Ok l /\ evaluate l = Ok m /\
    linear_kernel_dense (LinearKernel.offset k) (LinearKernel.variance k)
                        x1 x2 = Ok m /\
    shape m = [b; n1; n2] /\ wf m /\
    forall bi i j, bi < b -> i < n1 -> j < n2 ->
      entry m [bi; i; j] =
      linear_kernel_entry (LinearKernel.offset k) (LinearKernel.variance k)
                          x1 x2 d bi i j.
Proof.
  intros Hs Hk Hx1 Hx2.
  destruct (forward_batched k d b n1 n2 x1 x2 Hk Hx1 Hx2)
    as (c1 & c2 & prod & e & r & _ & _ & _ & _ & _ & Hf & _ & _ & Hev & Hd
        & Hsr & Hwr & Her).
  assert (Hx2' : (if size_eqb (shape x1) (shape x2) && equal x1 x2
                  then x1 else x2) = x2).
  { destruct (size_eqb (shape x1) (shape x2) && equal x1 x2) eqn:Hroot;
      [|reflexivity].
    apply andb_true_iff in Hroot. destruct Hroot as [_ Heq].
    apply (equal_eq x1 x2 Hs Heq). }
  rewrite Hx2' in Hd, Her.
  exists (SumLazyTensor prod e), r. repeat (split; [assumption|]).
  exact Her.
Qed.

Lemma same_input_iff (x1 x2 : tensor F) :
  size_eqb (shape x1) (shape x2) && equal x1 x2 = true <->
  shape x1 = shape x2 /\ elementwise_equal x1 x2.
Proof.
  unfold equal, elementwise_equal.
  rewrite !andb_true_iff, size_eqb_eq, all_eqb_Forall2. tauto.
Qed.



(** C5, as amended.  For an input [X] with at most one batch dimension the
    root form of [X - offset], which the first branch of [forward] builds,
    and the matmul form of the pair [(X - offset, X - offset)], which the
    second branch builds, materialize to the same dense tensor. *)
Theorem root_matmul_equivalence
    (k : LinearKernel.t F) (d b n : nat) (x : tensor F) :
  LinearKernel.registered k d -> batched x b n d ->
  exists lr lm m,
    LinearKernel.root_branch k x = Ok lr /\
    LinearKernel.matmul_branch k x x = Ok lm /\
    evaluate lr = Ok m /\ evaluate lm = Ok m /\ shape m = [b; n; n].
Proof.
  intros (_ & _ & Ho & _) Hx.
  destruct (sub_offset_ok _ _ _ _ _ Ho Hx) as (c & Hc & Hsc & _).
  destruct (product_eval c c b n n d Hsc Hsc)
    as (ct & m & Ht & _ & _ & Hevm & Hroot & Hsm & _).
  destruct (Hroot eq_refl) as [_ Hevr].
  exists (RootLazyTensor c), (MatmulLazyTensor c ct), m.
  unfold LinearKernel.root_branch, LinearKernel.matmul_branch.
  rewrite Hc. simpl. rewrite Ht. simpl. auto.
Qed.

(** C6.  When [x1] and [x2] have the same shape and are elementwise equal,
    whatever that shape as long as [x1 - offset] broadcasts, [forward]
    returns a lazy matrix and the tensor it materializes to equals its own
    transpose. *)
Theorem forward_symmetric
    (k : LinearKernel.t F) (d : nat) (x1 x2 c : tensor F) :
  fmul_comm F ->
  LinearKernel.registered k d ->
  shape x1 = shape x2 -> elementwise_equal x1 x2 ->
  sub x1 (LinearKernel.offset k) = Ok c ->
  exists l m,
    LinearKernel.forward k x1 x2 = Ok l /\ evaluate l = Ok m /\
    transpose m (-1) (-2) = Ok m.
Proof.
  intros Hcomm (Hv & _ & Ho & _) Hsh Heq Hc.
  (* the centered tensor has at least three dimensions *)
  assert (Hsc : exists bs n e, shape c = bs ++ [n; e]).
  { apply last2_exists. unfold sub, broadcast_op in Hc.
    destruct (broadcast_shapes (shape x1) (shape (LinearKernel.offset k)))
      as [s|] eqn:Hs; [|discriminate].
    injection Hc as <-. simpl. rewrite (broadcast_length _ _ _ Hs), Ho. simpl. lia. }
  destruct Hsc as (bs & n & e & Hsc).
  destruct (root_eval_any c bs n e Hsc) as (m0 & Hsz & Hev & Hsm & _ & Hem).
  destruct (expand_one (LinearKernel.variance k) (bs ++ [n; n]) Hv)
    as (ev & Hexp & Hse & _ & Hee); [destruct bs; discriminate|].
  destruct (add_same m0 ev _ Hsm Hse) as (r & Hr & Hsr & Hwr & Her).
  exists (SumLazyTensor (RootLazyTensor c) ev), r. split; [|split].
  - unfold LinearKernel.forward.
    rewrite (proj2 (same_input_iff x1 x2) (conj Hsh Heq)).
    unfold LinearKernel.root_branch. rewrite Hc. cbn [bind].
    rewrite Hsz. cbn [bind]. rewrite Hexp. cbn [bind].
    unfold lazy_add. rewrite Hsz. cbn [bind].
    rewrite Hse, broadcast_same, size_eqb_refl. reflexivity.
  - change (evaluate (SumLazyTensor (RootLazyTensor c) ev))
      with (m <- evaluate (RootLazyTensor c) ;; add m ev).
    rewrite Hev. exact Hr.
  - destruct (transpose_last2 r bs n n Hsr) as (rt & Ht & _ & Hsrt & Hwrt & Hert).
    rewrite Ht. f_equal.
    apply (tensor_ext F rt r); [congruence | exact Hwrt | exact Hwr |].
    rewrite Hsrt. intros idx Hidx.
    apply in_range_last2_inv in Hidx.
    destruct Hidx as (bi & i & j & -> & Hb & Hi & Hj).
    rewrite Hert by assumption.
    rewrite !Her by (apply in_range_last2; assumption).
    rewrite !Hem by assumption.
    rewrite !Hee by (apply in_range_last2; assumption).
    f_equal. apply dot_ext. intros kk _. apply Hcomm.
Qed.

End LinearKernelTheorems.

Section LinearKernelShapes.

Context {F : Type} `{Scalar F}.

(** The implicit product of the two product forms with a batch of column
    vectors. *)
Lemma root_matmul_ok (c v : tensor F) (b n d m : nat) :
  shape c = [b; n; d] -> shape v = [b; n; m] ->
  exists p, lazy_matmul (RootLazyTensor c) v = Ok p /\ shape p = [b; n; m].
Proof.
  intros Hc Hv.
  destruct (transpose21 c _ _ _ Hc) as (ct & _ & Ht & Hsct & _).
  destruct (matmul3 ct v _ _ _ _ Hsct Hv) as (w & _ & Hw & Hsw & _).
  destruct (matmul3 c w _ _ _ _ Hc Hsw) as (p & _ & Hp & Hsp & _).
  exists p. simpl. rewrite Ht. simpl. rewrite Hw. simpl. auto.
Qed.

Lemma matmul_form_matmul_ok (c ct v : tensor F) (b n1 n2 d m : nat) :
  shape c = [b; n1; d] -> shape ct = [b; d; n2] -> shape v = [b; n2; m] ->
  exists p, lazy_matmul (MatmulLazyTensor c ct) v = Ok p /\ shape p = [b; n1; m].
Proof.
  intros Hc Hct Hv.
  destruct (matmul3 ct v _ _ _ _ Hct Hv) as (w & _ & Hw & Hsw & _).
  destruct (matmul3 c w _ _ _ _ Hc Hsw) as (p & _ & Hp & Hsp & _).
  exists p. simpl. rewrite Hw. simpl. auto.
Qed.

(** C7, as amended.  On inputs of [n1] and [n2] vectors of [d] coordinates
    the lazy matrix that [forward] returns has size [(b, n1, n2)], where [b]
    is the common batch size of three-dimensional inputs and 1 for
    two-dimensional inputs; on either branch its product with a tensor of
    shape [(b, n2, m)] is defined and has shape [(b, n1, m)]. *)
Theorem forward_shape_and_matvec
    (k : LinearKernel.t F) (d b n1 n2 : nat) (x1 x2 : tensor F) :
  LinearKernel.registered k d -> batched x1 b n1 d -> batched x2 b n2 d ->
  exists l,
    LinearKernel.forward k x1 x2 = Ok l /\
    lazy_size l = Ok [b; n1; n2] /\
    materialized_shape l = Ok [b; n1; n2] /\
    forall (v : tensor F) (m : nat), shape v = [b; n2; m] ->
      exists w, lazy_matmul l v = Ok w /\ shape w = [b; n1; m].
Proof.
  intros Hk Hx1 Hx2.
  destruct (forward_batched k d b n1 n2 x1 x2 Hk Hx1 Hx2)
    as (c1 & c2 & prod & e & r & _ & Hs1 & _ & Hs2 & Hform & Hf & Hse & Hsz
        & Hev & _ & Hsr & _).
  exists (SumLazyTensor prod e).
  split; [exact Hf|]. split; [exact Hsz|]. split.
  { unfold materialized_shape. rewrite Hev. simpl. rewrite Hsr. reflexivity. }
  intros v m Hv.
  assert (Hp : exists p, lazy_matmul prod v = Ok p /\ shape p = [b; n1; m]).
  { destruct Hform as [(_ & Hn & ->) | (_ & c2t & _ & Hst & ->)].
    - subst n2. apply (root_matmul_ok c1 v b n1 d m Hs1 Hv).
    - apply (matmul_form_matmul_ok c1 c2t v b n1 n2 d m Hs1 Hst Hv). }
  destruct Hp as (p & Hp & Hsp).
  destruct (matmul3 e v _ _ _ _ Hse Hv) as (q & _ & Hq & Hsq & _).
  destruct (add_same p q _ Hsp Hsq) as (w & Hw & Hsw & _).
  exists w. simpl. rewrite Hp. simpl. rewrite Hq. simpl. auto.
Qed.

(** C8, as amended.  When the last dimension of an input differs from
    [num_dimensions] and neither of the two is 1, the centering subtraction
    cannot broadcast and [forward] fails with that error. *)
Theorem forward_dimension_mismatch
    (k : LinearKernel.t F) (d : nat) (x1 x2 : tensor F) :
  LinearKernel.registered k d ->
  last_dim_mismatch d (shape x1) \/ last_dim_mismatch d (shape x2) ->
  LinearKernel.forward k x1 x2 = Err BroadcastError.
Proof.
  intros (_ & _ & Ho & _) Hbad. unfold LinearKernel.forward.
  destruct (size_eqb (shape x1) (shape x2) && equal x1 x2) eqn:Hroot.
  - assert (H1 : last_dim_mismatch d (shape x1)).
    { apply andb_true_iff in Hroot. destruct Hroot as [Hsz _].
      apply size_eqb_eq in Hsz. destruct Hbad as [Hb | Hb];
        [exact Hb | rewrite Hsz; exact Hb]. }
    unfold LinearKernel.root_branch.
    rewrite (sub_offset_mismatch _ _ _ Ho H1). reflexivity.
  - unfold LinearKernel.matmul_branch.
    destruct (sub x1 (LinearKernel.offset k)) as [c1|e] eqn:Hc1; simpl.
    + destruct Hbad as [Hb | Hb].
      * rewrite (sub_offset_mismatch _ _ _ Ho Hb) in Hc1. discriminate.
      * rewrite (sub_offset_mismatch _ _ _ Ho Hb). reflexivity.
    + apply sub_err in Hc1. subst e. reflexivity.
Qed.

(** C9, as amended.  When one of two inputs with at most one batch
    dimension has no vectors ([n1 = 0] or [n2 = 0]), [forward] returns; the
    lazy matrix has size [(b, n1, n2)] and materializes to the tensor of that
    shape, which has no entries. *)
Theorem forward_zero_length
    (k : LinearKernel.t F) (d b n1 n2 : nat) (x1 x2 : tensor F) :
  LinearKernel.registered k d -> batched x1 b n1 d -> batched x2 b n2 d ->
  n1 = 0 \/ n2 = 0 ->
  exists l m,
    LinearKernel.forward k x1 x2 = Ok l /\
    lazy_size l = Ok [b; n1; n2] /\
    evaluate l = Ok m /\ m = mkTensor [b; n1; n2] [].
Proof.
  intros Hk Hx1 Hx2 Hz.
  destruct (forward_batched k d b n1 n2 x1 x2 Hk Hx1 Hx2)
    as (c1 & c2 & prod & e & r & _ & _ & _ & _ & _ & Hf & _ & Hsz
        & Hev & _ & Hsr & Hwr & _).
  exists (SumLazyTensor prod e), r.
  split; [exact Hf|]. split; [exact Hsz|]. split; [exact Hev|].
  destruct r as [sr dr]. unfold wf in Hwr. simpl in *. subst sr.
  f_equal. apply length_zero_iff_nil. rewrite Hwr. simpl.
  destruct Hz; subst; lia.
Qed.

(** C10.  On two-dimensional inputs both centered tensors have three
    dimensions, the first of size 1, because the offset has shape
    [(1, 1, num_dimensions)]; on either branch the lazy matrix that
    [forward] returns has size [(1, n1, n2)], and so has the tensor it
    materializes to. *)
Theorem forward_unbatched_gets_batch
    (k : LinearKernel.t F) (d n1 n2 : nat) (x1 x2 : tensor F) :
  LinearKernel.registered k d -> shape x1 = [n1; d] -> shape x2 = [n2; d] ->
  exists c1 c2 l,
    sub x1 (LinearKernel.offset k) = Ok c1 /\ shape c1 = [1; n1; d] /\
    sub x2 (LinearKernel.offset k) = Ok c2 /\ shape c2 = [1; n2; d] /\
    LinearKernel.forward k x1 x2 = Ok l /\
    lazy_size l = Ok [1; n1; n2] /\
    materialized_shape l = Ok [1; n1; n2].
Proof.
  intros Hk Hx1 Hx2.
  destruct (forward_batched k d 1 n1 n2 x1 x2 Hk)
    as (c1 & c2 & prod & e & r & Hc1 & Hs1 & Hc2 & Hs2 & _ & Hf & _ & Hsz
        & Hev & _ & Hsr & _); [right; auto | right; auto |].
  exists c1, c2, (SumLazyTensor prod e).
  repeat (split; [assumption|]).
  unfold materialized_shape. rewrite Hev. simpl. rewrite Hsr. reflexivity.
Qed.

End LinearKernelShapes.

(** * The multitask kernel *)

Section MultitaskTheorems.

Context {F : Type} `{Scalar F}.

(** The Kronecker product, block by block: the block at [(p, q)] is the
    second factor scaled by entry [(p, q)] of the first. *)
Lemma kron_blocks (c d : tensor F) (r1 c1 r2 c2 : nat) :
  shape c = [r1; c1] -> shape d = [r2; c2] ->
  exists m, kron c d = Ok m /\ shape m = [r1 * r2; c1 * c2] /\ wf m /\
    forall p q i j, p < r1 -> q < c1 -> i < r2 -> j < c2 ->
      entry m [p * r2 + i; q * c2 + j] = fmul (entry c [p; q]) (entry d [i; j]).
Proof.
  intros Hc Hd. unfold kron. rewrite Hc, Hd. simpl.
  eexists; split; [reflexivity|]. split; [reflexivity|].
  split; [apply wf_tabulate|].
  intros p q i j Hp Hq Hi Hj.
  rewrite entry_tabulate by (apply in_range2; nia).
  unfold kron_entry. rewrite Hd.
  change (nth 0 [r2; c2] 0) with r2. change (nth 1 [r2; c2] 0) with c2.
  change (nth 0 [p * r2 + i; q * c2 + j] 0) with (p * r2 + i).
  change (nth 1 [p * r2 + i; q * c2 + j] 0) with (q * c2 + j).
  rewrite <- (Nat.div_unique (p * r2 + i) r2 p i) by lia.
  rewrite <- (Nat.div_unique (q * c2 + j) c2 q j) by lia.
  rewrite <- (Nat.mod_unique (p * r2 + i) r2 p i) by lia.
  rewrite <- (Nat.mod_unique (q * c2 + j) c2 q j) by lia.
  reflexivity.
Qed.

Lemma range_long_ok (n : nat) : 0 < n -> range_long n = Ok (task_index_vector n).
Proof. destruct n; [lia | reflexivity]. Qed.

(** [covar_x] is the data covariance without a leading dimension of size 1. *)
Lemma covar_x_represents (out : MultitaskKernel.kernel_output F)
    (s : list nat) (m : tensor F) :
  output_represents out s m ->
  lazy_represents (MultitaskKernel.covar_x_of out) (squeeze0_shape s) (squeeze0 m).
Proof.
  intros (Hs & Hm & Hsm). unfold lazy_represents.
  destruct out as [t | l]; simpl in *.
  - injection Hs as <-. injection Hm as <-. auto.
  - rewrite Hs, Hm. simpl. subst s. auto.
Qed.

Lemma forward_kron (k : MultitaskKernel.t F) (x1 x2 : tensor F)
    (ci : LazyTensor F) (out : MultitaskKernel.kernel_output F)
    (mi mx : tensor F) (r1 c1 r2 c2 : nat) :
  0 < MultitaskKernel.n_tasks k ->
  MultitaskKernel.task_covar_module k
    (task_index_vector (MultitaskKernel.n_tasks k)) = Ok ci ->
  lazy_represents ci [r1; c1] mi ->
  MultitaskKernel.data_covar_module k x1 x2 = Ok out ->
  lazy_represents (MultitaskKernel.covar_x_of out) [r2; c2] mx ->
  exists m,
    MultitaskKernel.forward k x1 x2 =
      Ok (KroneckerProductLazyVariable ci (MultitaskKernel.covar_x_of out)) /\
    evaluate (KroneckerProductLazyVariable ci (MultitaskKernel.covar_x_of out))
      = Ok m /\
    kron mi mx = Ok m /\ shape m = [r1 * r2; c1 * c2] /\
    forall p q i j, p < r1 -> q < c1 -> i < r2 -> j < c2 ->
      entry m [p * r2 + i; q * c2 + j] = fmul (entry mi [p; q]) (entry mx [i; j]).
Proof.
  intros Hn Hci (Hsi & Hei & Hmi) Hout (Hsx & Hex & Hmx).
  destruct (kron_blocks mi mx r1 c1 r2 c2 Hmi Hmx) as (m & Hk & Hsm & _ & Hem).
  exists m. split.
  { unfold MultitaskKernel.forward. rewrite (range_long_ok _ Hn). simpl.
    rewrite Hci. simpl. rewrite Hout. simpl. rewrite Hsi. simpl.
    rewrite Hsx. simpl. reflexivity. }
  split; [simpl; rewrite Hei; simpl; rewrite Hex; simpl; exact Hk|].
  auto.
Qed.

Lemma kron_ok_inv (c d m : tensor F) :
  kron c d = Ok m ->
  exists r1 c1 r2 c2, shape c = [r1; c1] /\ shape d = [r2; c2].
Proof.
  unfold kron, kron_shape. intros Hk.
  destruct (shape c) as [|r1 [|c1 [|? ?]]]; try discriminate.
  destruct (shape d) as [|r2 [|c2 [|? ?]]]; try discriminate.
  exists r1, c1, r2, c2. auto.
Qed.

(** C4.  Whenever [forward] returns a lazy matrix that materializes, the
    task covariance module, called on the task indices
    [0, ..., n_tasks - 1], gave a matrix [covar_i], the data kernel, called
    on [x1] and [x2], gave a matrix [covar_x] (after the leading dimension of
    size 1, if any, is squeezed away), and the materialized tensor is their
    Kronecker product: entry [(p r2 + i, q c2 + j)] is entry [(p, q)] of the
    task covariance times entry [(i, j)] of the data covariance.  And
    [forward] does return such a lazy matrix whenever the two modules give
    matrices. *)
Theorem forward_materializes_kronecker
    (k : MultitaskKernel.t F) (x1 x2 : tensor F) :
  (forall res m,
     MultitaskKernel.forward k x1 x2 = Ok res -> evaluate res = Ok m ->
     exists ci out mi mx r1 c1 r2 c2,
       MultitaskKernel.task_covar_module k
         (task_index_vector (MultitaskKernel.n_tasks k)) = Ok ci /\
       MultitaskKernel.data_covar_module k x1 x2 = Ok out /\
       evaluate ci = Ok mi /\ shape mi = [r1; c1] /\
       materialize_output out = Ok mx /\ shape (squeeze0 mx) = [r2; c2] /\
       kron mi (squeeze0 mx) = Ok m /\
       shape m = [r1 * r2; c1 * c2] /\
       forall p q i j, p < r1 -> q < c1 -> i < r2 -> j < c2 ->
         entry m [p * r2 + i; q * c2 + j] =
         fmul (entry mi [p; q]) (entry (squeeze0 mx) [i; j])) /\
  (forall ci out mi mx s r1 c1 r2 c2,
     0 < MultitaskKernel.n_tasks k ->
     MultitaskKernel.task_covar_module k
       (task_index_vector (MultitaskKernel.n_tasks k)) = Ok ci ->
     lazy_represents ci [r1; c1] mi ->
     MultitaskKernel.data_covar_module k x1 x2 = Ok out ->
     output_represents out s mx -> squeeze0_shape s = [r2; c2] ->
     exists res m,
       MultitaskKernel.forward k x1 x2 = Ok res /\ evaluate res = Ok m /\
       kron mi (squeeze0 mx) = Ok m).
Proof.
  split.
  - intros res m Hf He. unfold MultitaskKernel.forward in Hf.
    apply bind_ok in Hf. destruct Hf as (ti & Hti & Hf).
    apply bind_ok in Hf. destruct Hf as (ci & Hci & Hf).
    apply bind_ok in Hf. destruct Hf as (out & Hout & Hf).
    apply bind_ok in Hf. destruct Hf as (si & _ & Hf).
    apply bind_ok in Hf. destruct Hf as (sx & _ & Hf).
    apply bind_ok in Hf. destruct Hf as (sr & _ & Hf).
    injection Hf as <-.
    assert (Hn : ti = task_index_vector (MultitaskKernel.n_tasks k)).
    { unfold range_long in Hti.
      destruct (MultitaskKernel.n_tasks k); [discriminate|].
      injection Hti as <-. reflexivity. }
    subst ti.
    change (evaluate (KroneckerProductLazyVariable ci
                        (MultitaskKernel.covar_x_of out)))
      with (mc <- evaluate ci ;;
            md <- evaluate (MultitaskKernel.covar_x_of out) ;; kron mc md) in He.
    apply bind_ok in He. destruct He as (mi & Hmi & He).
    apply bind_ok in He. destruct He as (md & Hmd & Hk).
    assert (Hmx : exists mx, materialize_output out = Ok mx /\ md = squeeze0 mx).
    { destruct out as [t | l]; simpl in Hmd |- *.
      - injection Hmd as <-. eauto.
      - apply bind_ok in Hmd. destruct Hmd as (mx & Hmx & Hsq).
        injection Hsq as <-. eauto. }
    destruct Hmx as (mx & Hmx & ->).
    destruct (kron_ok_inv _ _ _ Hk) as (r1 & c1 & r2 & c2 & Hsi & Hsx).
    destruct (kron_blocks mi (squeeze0 mx) r1 c1 r2 c2 Hsi Hsx)
      as (m' & Hk' & Hsm & _ & Hem).
    assert (m' = m) by congruence. subst m'.
    exists ci, out, mi, mx, r1, c1, r2, c2. auto 12.
  - intros ci out mi mx s r1 c1 r2 c2 Hn Hci Hri Hout Hrx Hs.
    apply covar_x_represents in Hrx. rewrite Hs in Hrx.
    destruct (forward_kron k x1 x2 ci out mi (squeeze0 mx) r1 c1 r2 c2
                Hn Hci Hri Hout Hrx) as (m & Hf & He & Hk & _).
    eexists; exists m. eauto.
Qed.

Lemma size_reads_shapes (k : MultitaskKernel.t F) (x1 x2 : tensor F) :
  MultitaskKernel.size k x1 x2 =
  size_of_shapes (MultitaskKernel.n_tasks k) (shape x1) (shape x2).
Proof.
  unfold MultitaskKernel.size, size_of_shapes, size_at, ndimension.
  destruct (Nat.eqb_spec (length (shape x1)) 3) as [H3 | H3].
  - rewrite H3. simpl.
    destruct (shape x1) as [|b [|n1 [|d1 [|? ?]]]]; try discriminate. simpl.
    destruct (norm_dim (length (shape x2)) (-2)); reflexivity.
  - destruct (norm_dim (length (shape x1)) (-2)); simpl; [|reflexivity].
    destruct (norm_dim (length (shape x2)) (-2)); reflexivity.
Qed.

(** C3, as amended.  [size] is computed from [n_tasks] and the shapes of the
    inputs alone: [(b, t n1, t n2)] when [x1] has three dimensions and
    [(t n1, t n2)] when it has two.  For two-dimensional inputs, a task
    covariance of shape [(t, t)] and a data covariance of shape
    [(1, n1, n2)], or [(n1, n2)] with [n1] other than 1, this size is the
    shape of the matrix that the output of [forward] materializes to. *)
Theorem size_contract (k : MultitaskKernel.t F) (x1 x2 : tensor F) :
  let t := MultitaskKernel.n_tasks k in
  MultitaskKernel.size k x1 x2 = size_of_shapes t (shape x1) (shape x2) /\
  (forall b n1 d1 n2 d2 s2,
      shape x1 = [b; n1; d1] -> shape x2 = s2 ++ [n2; d2] ->
      MultitaskKernel.size k x1 x2 = Ok [b; t * n1; t * n2]) /\
  (forall n1 d1 n2 d2,
      shape x1 = [n1; d1] -> shape x2 = [n2; d2] ->
      MultitaskKernel.size k x1 x2 = Ok [t * n1; t * n2] /\
      forall ci mi out s mx,
        0 < t ->
        MultitaskKernel.task_covar_module k (task_index_vector t) = Ok ci ->
        lazy_represents ci [t; t] mi ->
        MultitaskKernel.data_covar_module k x1 x2 = Ok out ->
        output_represents out s mx ->
        s = [1; n1; n2] \/ (s = [n1; n2] /\ n1 <> 1) ->
        exists res m,
          MultitaskKernel.forward k x1 x2 = Ok res /\ evaluate res = Ok m /\
          MultitaskKernel.size k x1 x2 = Ok (shape m)).
Proof.
  intros t. split; [apply size_reads_shapes|]. split.
  - intros b n1 d1 n2 d2 s2 H1 H2. rewrite size_reads_shapes.
    unfold size_of_shapes. rewrite H1, H2. simpl.
    assert (Hd : norm_dim (length (s2 ++ [n2; d2])) (-2) = Some (length s2)).
    { rewrite length_app. simpl. unfold norm_dim.
      replace ((0 <=? -2) && (-2 <? Z.of_nat (length s2 + 2)))%Z with false
        by reflexivity.
      replace ((- Z.of_nat (length s2 + 2) <=? -2) && (-2 <? 0))%Z with true
        by (symmetry; apply andb_true_iff; split;
            [apply Z.leb_le; lia | reflexivity]).
      f_equal. lia. }
    rewrite Hd. fold t. rewrite nth_middle. reflexivity.
  - intros n1 d1 n2 d2 H1 H2.
    assert (Hsz : MultitaskKernel.size k x1 x2 = Ok [t * n1; t * n2]).
    { rewrite size_reads_shapes. unfold size_of_shapes. rewrite H1, H2.
      reflexivity. }
    split; [exact Hsz|].
    intros ci mi out s mx Ht Hci Hri Hout Hrx Hs.
    apply covar_x_represents in Hrx.
    assert (Hsq : squeeze0_shape s = [n1; n2]).
    { destruct Hs as [-> | [-> Hn1]]; [reflexivity|].
      simpl. destruct n1 as [|[|n1]]; try reflexivity. contradiction. }
    rewrite Hsq in Hrx.
    destruct (forward_kron k x1 x2 ci out mi (squeeze0 mx) t t n1 n2
                Ht Hci Hri Hout Hrx) as (m & Hf & He & _ & Hsm & _).
    eexists; exists m. split; [exact Hf|]. split; [exact He|].
    rewrite Hsz, Hsm. reflexivity.
Qed.

End MultitaskTheorems.

(** * The theorems on concrete inputs *)

Lemma ex_kernel_registered : LinearKernel.registered ex_kernel 3.
Proof. repeat split. Qed.

Lemma ex_kernel1_registered : LinearKernel.registered ex_kernel1 1.
Proof. repeat split. Qed.

Lemma ex_kernel2_registered : LinearKernel.registered ex_kernel2 2.
Proof. repeat split. Qed.

(** C1 on a pair of two-dimensional inputs. *)
Lemma forward_materializes_linear_kernel_witness :
  exists l m,
    LinearKernel.forward ex_kernel ex_x23 ex_x13 = Ok l /\ evaluate l = Ok m /\
    linear_kernel_dense (LinearKernel.offset ex_kernel)
                        (LinearKernel.variance ex_kernel) ex_x23 ex_x13 = Ok m /\
    shape m = [1; 2; 1] /\ wf m /\
    forall bi i j, bi < 1 -> i < 2 -> j < 1 ->
      entry m [bi; i; j] =
      linear_kernel_entry (LinearKernel.offset ex_kernel)
                          (LinearKernel.variance ex_kernel) ex_x23 ex_x13 3 bi i j.
Proof.
  apply (forward_materializes_linear_kernel ex_kernel 3 1 2 1 ex_x23 ex_x13
           Z_feqb_sound ex_kernel_registered).
  - right. split; reflexivity.
  - right. split; reflexivity.
Defined.

(** C1 as stated fails on inputs with two batch dimensions: [transpose(2, 1)]
    exchanges the second batch dimension with the rows, and the matrix that
    [forward] materializes to is not [(x1 - o)(x2 - o)ᵗ + v]. *)
Lemma forward_two_batch_dimensions_counterexample :
  LinearKernel.registered ex_kernel2 2 /\
  shape ex_x1222 = [1; 2; 2; 2] /\ shape ex_y1222 = [1; 2; 2; 2] /\
  exists l m dense,
    LinearKernel.forward ex_kernel2 ex_x1222 ex_y1222 = Ok l /\
    evaluate l = Ok m /\
    linear_kernel_dense (LinearKernel.offset ex_kernel2)
                        (LinearKernel.variance ex_kernel2)
                        ex_x1222 ex_y1222 = Ok dense /\
    m <> dense.
Proof.
  split; [exact ex_kernel2_registered|]. split; [reflexivity|].
  split; [reflexivity|].
  eexists; eexists; eexists.
  split; [vm_compute; reflexivity|].
  split; [vm_compute; reflexivity|].
  split; [vm_compute; reflexivity|].
  discriminate.
Qed.


(** C5 on a batch of two matrices. *)
Lemma root_matmul_equivalence_witness :
  exists lr lm m,
    LinearKernel.root_branch ex_kernel ex_x223 = Ok lr /\
    LinearKernel.matmul_branch ex_kernel ex_x223 ex_x223 = Ok lm /\
    evaluate lr = Ok m /\ evaluate lm = Ok m /\ shape m = [2; 2; 2].
Proof.
  apply (root_matmul_equivalence ex_kernel 3 2 2 ex_x223 ex_kernel_registered).
  left. reflexivity.
Defined.

(** C5 as stated fails on an input with two batch dimensions: the second
    branch transposes with [transpose(2, 1)], which there is not the
    transposition of the trailing matrices. *)
Lemma root_matmul_two_batch_dimensions_counterexample :
  LinearKernel.registered ex_kernel2 2 /\ shape ex_y1222 = [1; 2; 2; 2] /\
  exists lr lm mr mm,
    LinearKernel.root_branch ex_kernel2 ex_y1222 = Ok lr /\
    LinearKernel.matmul_branch ex_kernel2 ex_y1222 ex_y1222 = Ok lm /\
    evaluate lr = Ok mr /\ evaluate lm = Ok mm /\ mr <> mm.
Proof.
  split; [exact ex_kernel2_registered|]. split; [reflexivity|].
  eexists; eexists; eexists; eexists.
  split; [vm_compute; reflexivity|].
  split; [vm_compute; reflexivity|].
  split; [vm_compute; reflexivity|].
  split; [vm_compute; reflexivity|].
  discriminate.
Qed.

(** C6 on an input with two batch dimensions. *)
Lemma forward_symmetric_witness :
  exists l m,
    LinearKernel.forward ex_kernel2 ex_x1222 ex_x1222 = Ok l /\
    evaluate l = Ok m /\
    transpose m (-1) (-2) = Ok m.
Proof.
  eapply (forward_symmetric ex_kernel2 2 ex_x1222 ex_x1222 _
            Z_fmul_comm ex_kernel2_registered).
  - reflexivity.
  - unfold elementwise_equal. simpl. repeat constructor.
  - vm_compute. reflexivity.
Defined.

(** C7 as amended, on a pair of two-dimensional inputs. *)
Lemma forward_shape_and_matvec_witness :
  exists l,
    LinearKernel.forward ex_kernel ex_x23 ex_x23 = Ok l /\
    lazy_size l = Ok [1; 2; 2] /\
    materialized_shape l = Ok [1; 2; 2] /\
    forall (v : tensor Z) (m : nat), shape v = [1; 2; m] ->
      exists w, lazy_matmul l v = Ok w /\ shape w = [1; 2; m].
Proof.
  apply (forward_shape_and_matvec ex_kernel 3 1 2 2 ex_x23 ex_x23
           ex_kernel_registered).
  - right. split; reflexivity.
  - right. split; reflexivity.
Defined.

(** C7 as stated fails on two-dimensional inputs: the inputs have no batch
    dimension, the lazy matrix has one. *)
Lemma forward_shape_counterexample :
  LinearKernel.registered ex_kernel 3 /\
  shape ex_x23 = [2; 3] /\ shape ex_x13 = [1; 3] /\
  spec_output_shape (shape ex_x23) (shape ex_x13) = [2; 1] /\
  exists l,
    LinearKernel.forward ex_kernel ex_x23 ex_x13 = Ok l /\
    lazy_size l = Ok [1; 2; 1] /\
    lazy_size l <> Ok (spec_output_shape (shape ex_x23) (shape ex_x13)).
Proof.
  split; [exact ex_kernel_registered|]. repeat (split; [reflexivity|]).
  eexists. split; [vm_compute; reflexivity|].
  split; [vm_compute; reflexivity|].
  vm_compute. discriminate.
Qed.

(** C8 as amended, on the example of the spec: three data dimensions,
    inputs of shape [(5, 4)]. *)
Lemma forward_dimension_mismatch_witness :
  LinearKernel.forward ex_kernel ex_x54 ex_x54 = Err BroadcastError.
Proof.
  apply (forward_dimension_mismatch ex_kernel 3 ex_x54 ex_x54
           ex_kernel_registered).
  left. exists [5], 4. repeat split; discriminate.
Defined.

(** C8 as stated fails when [num_dimensions] is 1: inputs of shape [(5, 4)]
    broadcast against the offset, and [forward] returns. *)
Lemma forward_dimension_mismatch_counterexample :
  LinearKernel.registered ex_kernel1 1 /\
  shape ex_x54 = [5; 4] /\
  exists l m,
    LinearKernel.forward ex_kernel1 ex_x54 ex_x54 = Ok l /\
    evaluate l = Ok m /\ shape m = [1; 5; 5].
Proof.
  split; [exact ex_kernel1_registered|]. split; [reflexivity|].
  eexists; eexists. split; [vm_compute; reflexivity|].
  split; [vm_compute; reflexivity|]. reflexivity.
Qed.

(** C9 on an input without vectors against one with two. *)
Lemma forward_zero_length_witness :
  exists l m,
    LinearKernel.forward ex_kernel ex_x03 ex_x23 = Ok l /\
    lazy_size l = Ok [1; 0; 2] /\
    evaluate l = Ok m /\ m = mkTensor [1; 0; 2] [].
Proof.
  apply (forward_zero_length ex_kernel 3 1 0 2 ex_x03 ex_x23
           ex_kernel_registered).
  - right. split; reflexivity.
  - right. split; reflexivity.
  - left. reflexivity.
Defined.

(** C9 as stated fails on inputs with two batch dimensions: [x1] has no
    vectors, the last dimension is [num_dimensions], and [forward] fails on
    the product of the centered [x1] with the wrongly transposed [x2]. *)
Lemma forward_zero_length_two_batch_dimensions_counterexample :
  LinearKernel.registered ex_kernel 3 /\
  shape ex_x1103 = [1; 1; 0; 3] /\ shape ex_x1123 = [1; 1; 2; 3] /\
  LinearKernel.forward ex_kernel ex_x1103 ex_x1123 = Err MatmulError.
Proof.
  split; [exact ex_kernel_registered|]. repeat (split; [reflexivity|]).
  vm_compute. reflexivity.
Qed.

(** C10 on a pair of two-dimensional inputs. *)
Lemma forward_unbatched_gets_batch_witness :
  exists c1 c2 l,
    sub ex_x23 (LinearKernel.offset ex_kernel) = Ok c1 /\ shape c1 = [1; 2; 3] /\
    sub ex_x13 (LinearKernel.offset ex_kernel) = Ok c2 /\ shape c2 = [1; 1; 3] /\
    LinearKernel.forward ex_kernel ex_x23 ex_x13 = Ok l /\
    lazy_size l = Ok [1; 2; 1] /\
    materialized_shape l = Ok [1; 2; 1].
Proof.
  apply (forward_unbatched_gets_batch ex_kernel 3 2 1 ex_x23 ex_x13
           ex_kernel_registered); reflexivity.
Defined.

(** C4 on two tasks and the linear kernel as data kernel. *)
Lemma forward_materializes_kronecker_witness :
  exists out mx,
    MultitaskKernel.data_covar_module ex_multitask ex_x23 ex_x13 = Ok out /\
    materialize_output out = Ok mx /\
    exists res m,
      MultitaskKernel.forward ex_multitask ex_x23 ex_x13 = Ok res /\
      evaluate res = Ok m /\
      kron ex_task_covar (squeeze0 mx) = Ok m.
Proof.
  eexists; eexists.
  split; [vm_compute; reflexivity|]. split; [vm_compute; reflexivity|].
  eapply (proj2 (forward_materializes_kronecker ex_multitask ex_x23 ex_x13)
            (NonLazyVariable ex_task_covar) _ ex_task_covar _ [1; 2; 1] 2 2 2 1).
  - simpl. lia.
  - reflexivity.
  - repeat split.
  - vm_compute. reflexivity.
  - repeat split.
  - reflexivity.
Defined.

(** C3 as amended, on two tasks and two-dimensional inputs. *)
Lemma size_contract_witness :
  MultitaskKernel.size ex_multitask ex_x23 ex_x13 = Ok [4; 2] /\
  exists res m,
    MultitaskKernel.forward ex_multitask ex_x23 ex_x13 = Ok res /\
    evaluate res = Ok m /\
    MultitaskKernel.size ex_multitask ex_x23 ex_x13 = Ok (shape m).
Proof.
  destruct (size_contract ex_multitask ex_x23 ex_x13) as (_ & _ & H2).
  destruct (H2 2 3 1 3 eq_refl eq_refl) as [Hsz Hfw].
  split; [exact Hsz|].
  eapply (Hfw (NonLazyVariable ex_task_covar) ex_task_covar _ [1; 2; 1]).
  - simpl. lia.
  - reflexivity.
  - repeat split.
  - vm_compute. reflexivity.
  - repeat split.
  - left. reflexivity.
Defined.

(** C3 as stated fails on three-dimensional inputs with one batch: [size]
    keeps the batch dimension, [forward] squeezes it away. *)
Lemma size_contract_counterexample :
  shape ex_x123 = [1; 2; 3] /\
  exists s res m,
    MultitaskKernel.size ex_multitask ex_x123 ex_x123 = Ok s /\
    MultitaskKernel.forward ex_multitask ex_x123 ex_x123 = Ok res /\
    evaluate res = Ok m /\
    s = [1; 4; 4] /\ shape m = [4; 4] /\ s <> shape m.
Proof.
  split; [reflexivity|].
  eexists; eexists; eexists.
  split; [vm_compute; reflexivity|].
  split; [vm_compute; reflexivity|].
  split; [vm_compute; reflexivity|].
  split; [reflexivity|]. split; [reflexivity|]. discriminate.
Qed.

(** * Further properties of the linear kernel *)

Section LinearKernelMore.

Context {F : Type} `{Scalar F}.

Lemma sub_shape (x o c : tensor F) :
  sub x o = Ok c -> broadcast_shapes (shape x) (shape o) = Some (shape c).
Proof.
  unfold sub, broadcast_op.
  destruct (broadcast_shapes (shape x) (shape o)) as [s|]; [|discriminate].
  intros Hc. injection Hc as <-. reflexivity.
Qed.

(** A centered tensor has at least three dimensions. *)
Lemma centered_rank (x o c : tensor F) (d : nat) :
  shape o = [1; 1; d] -> sub x o = Ok c -> 3 <= length (shape c).
Proof.
  intros Ho Hc. apply sub_shape in Hc.
  rewrite (broadcast_length _ _ _ Hc), Ho. simpl. lia.
Qed.

Lemma shape_last2 (c : tensor F) :
  2 <= length (shape c) -> exists bs n e, shape c = bs ++ [n; e].
Proof. apply last2_exists. Qed.

Lemma norm_dim_nonneg (r : nat) (i : nat) :
  i < r -> norm_dim r (Z.of_nat i) = Some i.
Proof.
  intros Hi. unfold norm_dim.
  replace ((0 <=? Z.of_nat i) && (Z.of_nat i <? Z.of_nat r))%Z with true
    by (symmetry; apply andb_true_iff; split;
        [apply Z.leb_le; lia | apply Z.ltb_lt; lia]).
  rewrite Nat2Z.id. reflexivity.
Qed.

Lemma transpose_2_1_defined (c : tensor F) :
  3 <= length (shape c) -> exists ct, transpose c 2 1 = Ok ct.
Proof.
  intros Hr. unfold transpose, ndimension.
  rewrite (norm_dim_nonneg _ 2), (norm_dim_nonneg _ 1) by lia.
  eexists. reflexivity.
Qed.

Lemma matmul_shape_err (sa sb : list nat) (e : error) :
  matmul_shape sa sb = Err e -> e = BroadcastError \/ e = MatmulError.
Proof.
  unfold matmul_shape.
  destruct ((length sa <? 2) || (length sb <? 2)); [intros He; right; congruence|].
  destruct (nth (length sa - 1) sa 0 =? nth (length sb - 2) sb 0);
    [|intros He; right; congruence].
  destruct (broadcast_shapes _ _); [discriminate | intros He; left; congruence].
Qed.

Lemma matmul_shape_nonempty (sa sb s : list nat) :
  matmul_shape sa sb = Ok s -> s <> [].
Proof.
  unfold matmul_shape.
  destruct ((length sa <? 2) || (length sb <? 2)); [discriminate|].
  destruct (nth (length sa - 1) sa 0 =? nth (length sb - 2) sb 0); [|discriminate].
  destruct (broadcast_shapes _ _) as [bs|]; [|discriminate].
  intros Hs. injection Hs as <-. destruct bs; discriminate.
Qed.

(** Once the product has a size, the rest of [forward] succeeds: the variance
    expands to any size and the sum is accepted. *)
Lemma forward_after_product (k : LinearKernel.t F) (x1 x2 : tensor F)
    (prod : LazyTensor F) (sz : list nat) :
  shape (LinearKernel.variance k) = [1] ->
  (if size_eqb (shape x1) (shape x2) && equal x1 x2
   then LinearKernel.root_branch k x1
   else LinearKernel.matmul_branch k x1 x2) = Ok prod ->
  lazy_size prod = Ok sz -> sz <> [] ->
  exists ev, LinearKernel.forward k x1 x2 = Ok (SumLazyTensor prod ev) /\
             expand (LinearKernel.variance k) sz = Ok ev /\ shape ev = sz.
Proof.
  intros Hv Hb Hsz Hne.
  destruct (expand_one (LinearKernel.variance k) sz Hv Hne)
    as (ev & Hexp & Hse & _).
  exists ev. split; [|auto].
  unfold LinearKernel.forward. rewrite Hb. cbn [bind]. rewrite Hsz. cbn [bind].
  rewrite Hexp. cbn [bind]. unfold lazy_add. rewrite Hsz. cbn [bind].
  rewrite Hse, broadcast_same, size_eqb_refl. reflexivity.
Qed.

Lemma root_size_defined (c : tensor F) :
  2 <= length (shape c) -> exists sz, lazy_size (RootLazyTensor c) = Ok sz /\ sz <> [].
Proof.
  intros Hr. destruct (shape_last2 c Hr) as (bs & n & e & Hc).
  destruct (root_eval_any c bs n e Hc) as (m & Hsz & _).
  exists (bs ++ [n; n]). split; [exact Hsz|]. destruct bs; discriminate.
Qed.

(** X3.  [forward] raises nothing but a broadcast error or a matrix-product
    error: never an index error from [transpose(2, 1)], never an error from
    [expand] or from the sum. *)
Theorem forward_error_kinds
    (k : LinearKernel.t F) (d : nat) (x1 x2 : tensor F) (e : error) :
  LinearKernel.registered k d ->
  LinearKernel.forward k x1 x2 = Err e ->
  e = BroadcastError \/ e = MatmulError.
Proof.
  intros (Hv & _ & Ho & _) Hf.
  destruct (if size_eqb (shape x1) (shape x2) && equal x1 x2
            then LinearKernel.root_branch k x1
            else LinearKernel.matmul_branch k x1 x2) as [prod|e'] eqn:Hb.
  - destruct (lazy_size prod) as [sz|e'] eqn:Hsz.
    + assert (Hne : sz <> []).
      { destruct (size_eqb (shape x1) (shape x2) && equal x1 x2).
        - unfold LinearKernel.root_branch in Hb.
          apply bind_ok in Hb. destruct Hb as (c & Hc & Hp). injection Hp as <-.
          destruct (root_size_defined c) as (sz' & Hsz' & Hne).
          { pose proof (centered_rank _ _ _ _ Ho Hc). lia. }
          congruence.
        - unfold LinearKernel.matmul_branch in Hb.
          apply bind_ok in Hb. destruct Hb as (c1 & _ & Hb).
          apply bind_ok in Hb. destruct Hb as (c2 & _ & Hb).
          apply bind_ok in Hb. destruct Hb as (c2t & _ & Hp). injection Hp as <-.
          simpl in Hsz. apply (matmul_shape_nonempty _ _ _ Hsz). }
      destruct (forward_after_product k x1 x2 prod sz Hv Hb Hsz Hne)
        as (ev & Hfw & _).
      congruence.
    + assert (He : e = e').
      { unfold LinearKernel.forward in Hf. rewrite Hb in Hf. cbn [bind] in Hf.
        rewrite Hsz in Hf. cbn [bind] in Hf. congruence. }
      subst e'.
      destruct (size_eqb (shape x1) (shape x2) && equal x1 x2).
      * unfold LinearKernel.root_branch in Hb.
        apply bind_ok in Hb. destruct Hb as (c & Hc & Hp). injection Hp as <-.
        destruct (root_size_defined c) as (sz' & Hsz' & _).
        { pose proof (centered_rank _ _ _ _ Ho Hc). lia. }
        congruence.
      * unfold LinearKernel.matmul_branch in Hb.
        apply bind_ok in Hb. destruct Hb as (c1 & _ & Hb).
        apply bind_ok in Hb. destruct Hb as (c2 & _ & Hb).
        apply bind_ok in Hb. destruct Hb as (c2t & _ & Hp). injection Hp as <-.
        simpl in Hsz. apply (matmul_shape_err _ _ _ Hsz).
  - assert (He : e = e').
    { unfold LinearKernel.forward in Hf. rewrite Hb in Hf. cbn [bind] in Hf.
      congruence. }
    subst e'. left.
    destruct (size_eqb (shape x1) (shape x2) && equal x1 x2).
    + unfold LinearKernel.root_branch in Hb.
      destruct (sub x1 (LinearKernel.offset k)) as [c|e'] eqn:Hc;
        [discriminate|].
      cbn [bind] in Hb. injection Hb as <-. apply (sub_err _ _ _ Hc).
    + unfold LinearKernel.matmul_branch in Hb.
      destruct (sub x1 (LinearKernel.offset k)) as [c1|e1] eqn:Hc1; cbn [bind] in Hb;
        [|injection Hb as <-; apply (sub_err _ _ _ Hc1)].
      destruct (sub x2 (LinearKernel.offset k)) as [c2|e2] eqn:Hc2; cbn [bind] in Hb;
        [|injection Hb as <-; apply (sub_err _ _ _ Hc2)].
      destruct (transpose_2_1_defined c2) as (ct & Hct).
      { apply (centered_rank _ _ _ _ Ho Hc2). }
      rewrite Hct in Hb. discriminate.
Qed.


(** X4.  On equal inputs [forward] returns exactly when [x1 - offset]
    broadcasts. *)
Theorem forward_equal_inputs_defined
    (k : LinearKernel.t F) (d : nat) (x1 x2 : tensor F) :
  LinearKernel.registered k d ->
  shape x1 = shape x2 -> elementwise_equal x1 x2 ->
  ((exists l, LinearKernel.forward k x1 x2 = Ok l) <->
   (exists c, sub x1 (LinearKernel.offset k) = Ok c)) /\
  (forall e, LinearKernel.forward k x1 x2 = Err e -> e = BroadcastError).
Proof.
  intros (Hv & Hwv & Ho & Hwo) Hsh Heq.
  pose proof (proj2 (same_input_iff x1 x2) (conj Hsh Heq)) as Hroot.
  assert (Hok : forall c, sub x1 (LinearKernel.offset k) = Ok c ->
                exists l, LinearKernel.forward k x1 x2 = Ok l).
  { intros c Hc.
    destruct (root_size_defined c) as (sz & Hsz & Hne).
    { pose proof (centered_rank _ _ _ _ Ho Hc). lia. }
    destruct (forward_after_product k x1 x2 (RootLazyTensor c) sz Hv)
      as (ev & Hf & _); [|exact Hsz|exact Hne|eauto].
    rewrite Hroot. unfold LinearKernel.root_branch. rewrite Hc. reflexivity. }
  split; [split|].
  - intros (l & Hf). unfold LinearKernel.forward in Hf. rewrite Hroot in Hf.
    apply bind_ok in Hf. destruct Hf as (prod & Hb & _).
    unfold LinearKernel.root_branch in Hb.
    apply bind_ok in Hb. destruct Hb as (c & Hc & _). eauto.
  - intros (c & Hc). eauto.
  - intros e Hf.
    destruct (sub x1 (LinearKernel.offset k)) as [c|e'] eqn:Hc.
    + destruct (Hok c eq_refl) as (l & Hl). congruence.
    + unfold LinearKernel.forward in Hf. rewrite Hroot in Hf.
      unfold LinearKernel.root_branch in Hf. rewrite Hc in Hf. cbn [bind] in Hf.
      injection Hf as <-. apply (sub_err _ _ _ Hc).
Qed.


(** What [forward] does once the two centered tensors are known to have
    three dimensions and the same batch size and inner dimension.  [c2'] is
    the second factor of the product: [c1] itself on the root branch. *)
Lemma forward_from_centered (k : LinearKernel.t F) (x1 x2 c1 c2 : tensor F)
    (b n1 n2 e : nat) :
  shape (LinearKernel.variance k) = [1] ->
  sub x1 (LinearKernel.offset k) = Ok c1 -> shape c1 = [b; n1; e] ->
  sub x2 (LinearKernel.offset k) = Ok c2 -> shape c2 = [b; n2; e] ->
  let root := size_eqb (shape x1) (shape x2) && equal x1 x2 in
  let c2' := if root then c1 else c2 in
  exists l r,
    LinearKernel.forward k x1 x2 = Ok l /\
    lazy_size l = Ok [b; n1; n2] /\ evaluate l = Ok r /\
    shape r = [b; n1; n2] /\ wf r /\
    forall bi i j, bi < b -> i < n1 -> j < n2 ->
      entry r [bi; i; j] =
      fadd (dot e (fun kk => entry c1 [bi; i; kk]) (fun kk => entry c2' [bi; j; kk]))
           (entry (LinearKernel.variance k) [0]).
Proof.
  intros Hv Hc1 Hs1 Hc2 Hs2 root c2'.
  assert (Hn : root = true -> n1 = n2).
  { intros Hroot. subst root. apply andb_true_iff in Hroot.
    destruct Hroot as [Hsz _]. apply size_eqb_eq in Hsz.
    apply sub_shape in Hc1, Hc2. rewrite Hsz, Hc2, Hs1, Hs2 in Hc1. congruence. }
  assert (Hs2' : shape c2' = [b; n2; e]).
  { subst c2'. destruct root; [|exact Hs2]. rewrite <- (Hn eq_refl). exact Hs1. }
  destruct (product_eval c1 c2' b n1 n2 e Hs1 Hs2')
    as (c2t & m & Ht & _ & Hszm & Hevm & Hroot & Hsm & _ & Hem).
  assert (Hprod : exists prod,
             (if root then LinearKernel.root_branch k x1
              else LinearKernel.matmul_branch k x1 x2) = Ok prod /\
             lazy_size prod = Ok [b; n1; n2] /\ evaluate prod = Ok m).
  { subst c2'. destruct root.
    - exists (RootLazyTensor c1). destruct (Hroot eq_refl) as [Hsr Her].
      unfold LinearKernel.root_branch. rewrite Hc1. auto.
    - exists (MatmulLazyTensor c1 c2t).
      unfold LinearKernel.matmul_branch. rewrite Hc1, Hc2. cbn [bind].
      rewrite Ht. auto. }
  destruct Hprod as (prod & Hbranch & Hszp & Hevp).
  destruct (plus_variance prod _ m b n1 n2 Hszp Hevp Hsm Hv)
    as (ev & r & Hexp & Hadd & Hse & Hevr & Hsr & Hwr & Her).
  exists (SumLazyTensor prod ev), r. split.
  { unfold LinearKernel.forward. fold root. rewrite Hbranch. cbn [bind].
    rewrite Hszp. cbn [bind]. rewrite Hexp. exact Hadd. }
  split; [exact Hszp|]. split; [exact Hevr|]. split; [exact Hsr|].
  split; [exact Hwr|].
  intros bi i j Hb Hi Hj. rewrite Her, Hem by assumption. reflexivity.
Qed.

Lemma second_input_sound (x1 x2 : tensor F) :
  feqb_sound F ->
  (if size_eqb (shape x1) (shape x2) && equal x1 x2 then x1 else x2) = x2.
Proof.
  intros Hs.
  destruct (size_eqb (shape x1) (shape x2) && equal x1 x2) eqn:Hroot;
    [|reflexivity].
  apply andb_true_iff in Hroot. destruct Hroot as [_ Heq].
  apply (equal_eq x1 x2 Hs Heq).
Qed.

Lemma in_range3_inv (b n d : nat) (idx : list nat) :
  in_range [b; n; d] idx ->
  exists bi i kk, idx = [bi; i; kk] /\ bi < b /\ i < n /\ kk < d.
Proof.
  intros Hr.
  apply in_range_cons in Hr. destruct Hr as (bi & idx1 & -> & Hb & Hr).
  apply in_range_cons in Hr. destruct Hr as (i & idx2 & -> & Hn & Hr).
  apply in_range_cons in Hr. destruct Hr as (kk & idx3 & -> & Hd & Hr).
  apply in_range_nil in Hr; subst. exists bi, i, kk. auto.
Qed.

(** [__init__] leaves a kernel whose parameters have the shapes [(1)] and
    [(1, 1, num_dimensions)], are well formed and hold zeros. *)
Theorem init_registered (num_dimensions : nat) :
  LinearKernel.registered (LinearKernel.init num_dimensions) num_dimensions /\
  entry (LinearKernel.variance (LinearKernel.init num_dimensions)) [0] = fzero /\
  forall kk, kk < num_dimensions ->
    entry (LinearKernel.offset (LinearKernel.init num_dimensions)) [0; 0; kk] = fzero.
Proof.
  split; [|split].
  - repeat split; apply wf_tabulate.
  - reflexivity.
  - intros kk Hk. unfold LinearKernel.init, zeros. simpl.
    rewrite entry_tabulate by (apply in_range3; lia). reflexivity.
Qed.

(** X1.  A kernel fresh from the constructor is the plain product kernel: in
    exact arithmetic, [forward] materializes to [x1 x2ᵗ]. *)
Theorem fresh_kernel_is_gram_matrix (d b n1 n2 : nat) (x1 x2 : tensor F) :
  feqb_sound F -> fsub_zero F -> fadd_zero F ->
  batched x1 b n1 d -> batched x2 b n2 d ->
  exists l m,
    LinearKernel.forward (LinearKernel.init d) x1 x2 = Ok l /\
    evaluate l = Ok m /\ shape m = [b; n1; n2] /\
    forall bi i j, bi < b -> i < n1 -> j < n2 ->
      entry m [bi; i; j] =
      dot d (fun kk => row_entry x1 bi i kk) (fun kk => row_entry x2 bi j kk).
Proof.
  intros Hs Hsub Hadd Hx1 Hx2.
  destruct (init_registered d) as (Hreg & Hv0 & Ho0).
  destruct (forward_batched (LinearKernel.init d) d b n1 n2 x1 x2 Hreg Hx1 Hx2)
    as (c1 & c2 & prod & e & r & _ & _ & _ & _ & _ & Hf & _ & _ & Hev & _
        & Hsr & _ & Her).
  rewrite (second_input_sound x1 x2 Hs) in Her.
  exists (SumLazyTensor prod e), r.
  split; [exact Hf|]. split; [exact Hev|]. split; [exact Hsr|].
  intros bi i j Hb Hi Hj. rewrite Her by assumption.
  unfold linear_kernel_entry. rewrite Hv0, Hadd.
  apply dot_ext. intros kk Hk. rewrite (Ho0 kk Hk), !Hsub. reflexivity.
Qed.

(** X2.  Exchanging the inputs transposes the kernel matrix:
    [K(x2, x1) = K(x1, x2)ᵗ]. *)
Theorem forward_swapped_inputs_transpose
    (k : LinearKernel.t F) (d b n1 n2 : nat) (x1 x2 : tensor F) :
  feqb_sound F -> fmul_comm F ->
  LinearKernel.registered k d -> batched x1 b n1 d -> batched x2 b n2 d ->
  exists l12 l21 m12 m21,
    LinearKernel.forward k x1 x2 = Ok l12 /\ evaluate l12 = Ok m12 /\
    LinearKernel.forward k x2 x1 = Ok l21 /\ evaluate l21 = Ok m21 /\
    transpose m21 (-1) (-2) = Ok m12.
Proof.
  intros Hs Hcomm Hk Hx1 Hx2.
  destruct (forward_batched k d b n1 n2 x1 x2 Hk Hx1 Hx2)
    as (_ & _ & p12 & e12 & r12 & _ & _ & _ & _ & _ & Hf12 & _ & _ & Hev12 & _
        & Hs12 & Hw12 & He12).
  destruct (forward_batched k d b n2 n1 x2 x1 Hk Hx2 Hx1)
    as (_ & _ & p21 & e21 & r21 & _ & _ & _ & _ & _ & Hf21 & _ & _ & Hev21 & _
        & Hs21 & Hw21 & He21).
  rewrite (second_input_sound x1 x2 Hs) in He12.
  rewrite (second_input_sound x2 x1 Hs) in He21.
  exists (SumLazyTensor p12 e12), (SumLazyTensor p21 e21), r12, r21.
  repeat (split; [assumption|]).
  destruct (transpose21 r21 _ _ _ Hs21) as (rt & _ & Ht & Hsrt & Hwrt & Hert).
  rewrite Ht. f_equal.
  apply (tensor_ext F rt r12); [congruence | exact Hwrt | exact Hw12 |].
  rewrite Hsrt. intros idx Hidx.
  apply in_range3_inv in Hidx. destruct Hidx as (bi & i & j & -> & Hb & Hi & Hj).
  rewrite Hert, He12, He21 by assumption.
  unfold linear_kernel_entry. f_equal. apply dot_ext. intros kk _. apply Hcomm.
Qed.

Lemma broadcast_offset1 (b n e : nat) :
  broadcast_shapes [b; n; e] [1; 1; 1] = Some [b; n; e].
Proof.
  unfold broadcast_shapes. simpl.
  destruct (e =? 1) eqn:He; [apply Nat.eqb_eq in He; subst|];
    (destruct (n =? 1) eqn:Hn; [apply Nat.eqb_eq in Hn; subst|]);
    (destruct (b =? 1) eqn:Hb; [apply Nat.eqb_eq in Hb; subst|]); reflexivity.
Qed.

Lemma broadcast_offset1_unbatched (n e : nat) :
  broadcast_shapes [n; e] [1; 1; 1] = Some [1; n; e].
Proof.
  unfold broadcast_shapes. simpl.
  destruct (e =? 1) eqn:He; [apply Nat.eqb_eq in He; subst|];
    (destruct (n =? 1) eqn:Hn; [apply Nat.eqb_eq in Hn; subst|]); reflexivity.
Qed.

(** Centering against an offset of one coordinate: the one offset is
    subtracted from every coordinate, however many the input has. *)
Lemma sub_offset1_ok (o x : tensor F) (b n e : nat) :
  shape o = [1; 1; 1] -> batched x b n e ->
  exists c, sub x o = Ok c /\ shape c = [b; n; e] /\
    forall bi i kk, bi < b -> i < n -> kk < e ->
      entry c [bi; i; kk] = fsub (row_entry x bi i kk) (entry o [0; 0; 0]).
Proof.
  intros Ho [Hx | [-> Hx]]; unfold sub, broadcast_op; rewrite Hx, Ho.
  - rewrite broadcast_offset1. eexists; split; [reflexivity|].
    split; [reflexivity|].
    intros bi i kk Hb Hi Hk.
    rewrite entry_tabulate by (apply in_range3; assumption).
    rewrite bidx_in_range by (apply in_range3; assumption).
    unfold row_entry, ndimension. rewrite Hx. reflexivity.
  - rewrite broadcast_offset1_unbatched. eexists; split; [reflexivity|].
    split; [reflexivity|].
    intros bi i kk Hb Hi Hk.
    rewrite entry_tabulate by (apply in_range3; assumption).
    rewrite bidx_drop_batch by assumption.
    unfold row_entry, ndimension. rewrite Hx. reflexivity.
Qed.

(** X6.  A kernel constructed with [num_dimensions = 1] accepts inputs of any
    number [e] of coordinates: the single offset is subtracted from each of
    them and the products run over all [e]. *)
Theorem forward_one_dimension_broadcasts
    (k : LinearKernel.t F) (b n1 n2 e : nat) (x1 x2 : tensor F) :
  feqb_sound F ->
  LinearKernel.registered k 1 -> batched x1 b n1 e -> batched x2 b n2 e ->
  exists l m,
    LinearKernel.forward k x1 x2 = Ok l /\ evaluate l = Ok m /\
    shape m = [b; n1; n2] /\
    forall bi i j, bi < b -> i < n1 -> j < n2 ->
      entry m [bi; i; j] =
      fadd (dot e
              (fun kk => fsub (row_entry x1 bi i kk)
                              (entry (LinearKernel.offset k) [0; 0; 0]))
              (fun kk => fsub (row_entry x2 bi j kk)
                              (entry (LinearKernel.offset k) [0; 0; 0])))
           (entry (LinearKernel.variance k) [0]).
Proof.
  intros Hs (Hv & _ & Ho & _) Hx1 Hx2.
  destruct (sub_offset1_ok _ _ _ _ _ Ho Hx1) as (c1 & Hc1 & Hs1 & He1).
  destruct (sub_offset1_ok _ _ _ _ _ Ho Hx2) as (c2 & Hc2 & Hs2 & He2).
  destruct (forward_from_centered k x1 x2 c1 c2 b n1 n2 e Hv Hc1 Hs1 Hc2 Hs2)
    as (l & r & Hf & _ & Hev & Hsr & _ & Her).
  exists l, r. repeat (split; [assumption|]).
  intros bi i j Hb Hi Hj. rewrite Her by assumption. f_equal.
  assert (Hc : (if size_eqb (shape x1) (shape x2) && equal x1 x2 then c1 else c2)
               = c2).
  { pose proof (second_input_sound x1 x2 Hs) as Hx.
    destruct (size_eqb (shape x1) (shape x2) && equal x1 x2); [|reflexivity].
    subst x2. congruence. }
  rewrite Hc. apply dot_ext. intros kk Hk.
  rewrite He1, He2 by assumption. reflexivity.
Qed.

End LinearKernelMore.

(** * Further properties of the multitask kernel *)

Lemma norm_dim_minus2 (r : nat) :
  norm_dim r (-2) = if 2 <=? r then Some (r - 2) else None.
Proof.
  unfold norm_dim. simpl ((0 <=? -2)%Z && _).
  destruct (Nat.leb_spec 2 r) as [Hr | Hr].
  - replace ((- Z.of_nat r <=? -2) && (-2 <? 0))%Z with true
      by (symmetry; apply andb_true_iff; split; [apply Z.leb_le; lia | reflexivity]).
    f_equal. lia.
  - replace ((- Z.of_nat r <=? -2) && (-2 <? 0))%Z with false
      by (symmetry; apply andb_false_iff; left; apply Z.leb_gt; lia).
    reflexivity.
Qed.

Section MultitaskMore.

Context {F : Type} `{Scalar F}.

(** X7.  [size] raises an index error exactly when one of the inputs has fewer
    than two dimensions.  Otherwise it returns [(t n1, t n2)], preceded by
    the first dimension of [x1] only when [x1] has exactly three dimensions:
    the batch dimensions of an input with four or more dimensions are
    dropped, and those of [x2] are never read. *)
Theorem size_outcome (k : MultitaskKernel.t F) (x1 x2 : tensor F) :
  let t := MultitaskKernel.n_tasks k in
  let r1 := ndimension x1 in
  let r2 := ndimension x2 in
  (r1 < 2 \/ r2 < 2 -> MultitaskKernel.size k x1 x2 = Err IndexError) /\
  (2 <= r1 -> 2 <= r2 ->
   MultitaskKernel.size k x1 x2 =
   Ok ((if r1 =? 3 then [nth 0 (shape x1) 0] else [])
       ++ [t * nth (r1 - 2) (shape x1) 0; t * nth (r2 - 2) (shape x2) 0])).
Proof.
  intros t r1 r2. rewrite size_reads_shapes. unfold size_of_shapes.
  fold t. unfold ndimension in r1, r2. fold r1 r2.
  rewrite !norm_dim_minus2.
  destruct (Nat.leb_spec 2 r1) as [H1 | H1];
    destruct (Nat.leb_spec 2 r2) as [H2 | H2]; split;
    try (intros [Hlt | Hlt]; lia); try (intros; lia); try reflexivity.
  intros _ _. destruct (r1 =? 3); reflexivity.
Qed.

(** X8.  Without tasks [forward] fails on the range of task indices, whatever
    the inputs and the two modules are, while [size] still answers. *)
Theorem forward_without_tasks (k : MultitaskKernel.t F) (x1 x2 : tensor F) :
  MultitaskKernel.n_tasks k = 0 ->
  MultitaskKernel.forward k x1 x2 = Err RangeError /\
  (2 <= ndimension x1 -> 2 <= ndimension x2 ->
   exists s, MultitaskKernel.size k x1 x2 = Ok s /\ numel s = 0).
Proof.
  intros Hn. split.
  - unfold MultitaskKernel.forward. rewrite Hn. reflexivity.
  - intros H1 H2. destruct (size_outcome k x1 x2) as [_ Hs].
    rewrite (Hs H1 H2), Hn. eexists; split; [reflexivity|].
    destruct (ndimension x1 =? 3); simpl; lia.
Qed.

Lemma covar_x_size (out : MultitaskKernel.kernel_output F) (s : list nat) :
  output_size out = Ok s ->
  lazy_size (MultitaskKernel.covar_x_of out) = Ok (squeeze0_shape s).
Proof.
  destruct out as [m | l]; simpl; intros Hs.
  - injection Hs as <-. reflexivity.
  - rewrite Hs. reflexivity.
Qed.

(** X9.  With a task covariance that is a matrix, [forward] returns exactly when
    the data covariance, once [.squeeze(0)] has removed a leading dimension
    of size 1, is a matrix.  It fails with a shape mismatch otherwise: on a
    data covariance with a batch of two or more, and on an unbatched data
    covariance with a single row, whose row dimension is squeezed away. *)
Theorem forward_returns_iff_matrix
    (k : MultitaskKernel.t F) (x1 x2 : tensor F)
    (ci : LazyTensor F) (out : MultitaskKernel.kernel_output F)
    (s : list nat) (r1 c1 : nat) :
  0 < MultitaskKernel.n_tasks k ->
  MultitaskKernel.task_covar_module k
    (task_index_vector (MultitaskKernel.n_tasks k)) = Ok ci ->
  lazy_size ci = Ok [r1; c1] ->
  MultitaskKernel.data_covar_module k x1 x2 = Ok out ->
  output_size out = Ok s ->
  (length (squeeze0_shape s) = 2 ->
   MultitaskKernel.forward k x1 x2 =
   Ok (KroneckerProductLazyVariable ci (MultitaskKernel.covar_x_of out))) /\
  (length (squeeze0_shape s) <> 2 ->
   MultitaskKernel.forward k x1 x2 = Err ShapeMismatch) /\
  (forall b n1 n2, s = [b; n1; n2] -> b <> 1 ->
   MultitaskKernel.forward k x1 x2 = Err ShapeMismatch) /\
  (forall n2, s = [1; n2] ->
   MultitaskKernel.forward k x1 x2 = Err ShapeMismatch).
Proof.
  intros Hn Hci Hsi Hout Hs.
  pose proof (covar_x_size out s Hs) as Hsx.
  assert (Hf : MultitaskKernel.forward k x1 x2 =
               (_ <- kron_shape [r1; c1] (squeeze0_shape s) ;;
                Ok (KroneckerProductLazyVariable ci
                      (MultitaskKernel.covar_x_of out)))).
  { unfold MultitaskKernel.forward. rewrite (range_long_ok _ Hn). cbn [bind].
    rewrite Hci. cbn [bind]. rewrite Hout. cbn [bind]. rewrite Hsi. cbn [bind].
    rewrite Hsx. cbn [bind]. cbn [lazy_size]. rewrite Hsi, Hsx. reflexivity. }
  assert (Hbad : length (squeeze0_shape s) <> 2 ->
                 MultitaskKernel.forward k x1 x2 = Err ShapeMismatch).
  { intros Hl. rewrite Hf.
    destruct (squeeze0_shape s) as [|a [|b' [|? ?]]]; simpl in *;
      try reflexivity. contradiction. }
  split; [|split; [exact Hbad|split]].
  - intros Hl. rewrite Hf.
    destruct (squeeze0_shape s) as [|a [|b' [|? ?]]]; try discriminate.
    reflexivity.
  - intros b n1 n2 -> Hb. apply Hbad. simpl.
    destruct b as [|[|b]]; simpl; try discriminate. contradiction.
  - intros n2 ->. apply Hbad. simpl. discriminate.
Qed.

Lemma entry_squeeze0 (r : tensor F) (n1 n2 i j : nat) :
  shape r = [1; n1; n2] -> entry (squeeze0 r) [i; j] = entry r [0; i; j].
Proof.
  intros Hr. unfold entry, entry_d, squeeze0. simpl. rewrite Hr. simpl.
  reflexivity.
Qed.

(** X10.  A multitask kernel over a linear kernel, on inputs with at most one
    batch of size 1: [forward] returns, and the matrix it materializes to
    has, at [(p n1 + i, q n2 + j)], entry [(p, q)] of the task covariance
    times the linear kernel of vector [i] of [x1] and vector [j] of [x2]. *)
Theorem multitask_of_linear_forward
    (task : tensor Z -> result (LazyTensor F)) (lk : LinearKernel.t F)
    (t d n1 n2 r1 c1 : nat) (x1 x2 : tensor F)
    (ci : LazyTensor F) (mi : tensor F) :
  feqb_sound F ->
  LinearKernel.registered lk d -> batched x1 1 n1 d -> batched x2 1 n2 d ->
  0 < t -> task (task_index_vector t) = Ok ci ->
  lazy_represents ci [r1; c1] mi ->
  exists res m,
    MultitaskKernel.forward (multitask_of_linear task lk t) x1 x2 = Ok res /\
    evaluate res = Ok m /\ shape m = [r1 * n1; c1 * n2] /\
    forall p q i j, p < r1 -> q < c1 -> i < n1 -> j < n2 ->
      entry m [p * n1 + i; q * n2 + j] =
      fmul (entry mi [p; q])
           (linear_kernel_entry (LinearKernel.offset lk) (LinearKernel.variance lk)
                                x1 x2 d 0 i j).
Proof.
  intros Hs Hk Hx1 Hx2 Ht Hci Hri.
  destruct (forward_batched lk d 1 n1 n2 x1 x2 Hk Hx1 Hx2)
    as (_ & _ & prod & e & r & _ & _ & _ & _ & _ & Hf & _ & Hsz & Hev & _
        & Hsr & _ & Her).
  rewrite (second_input_sound x1 x2 Hs) in Her.
  set (out := MultitaskKernel.Lazy (SumLazyTensor prod e)).
  assert (Hout : MultitaskKernel.data_covar_module
                   (multitask_of_linear task lk t) x1 x2 = Ok out).
  { unfold multitask_of_linear. cbn [MultitaskKernel.data_covar_module].
    rewrite Hf. reflexivity. }
  assert (Hrx : output_represents out [1; n1; n2] r).
  { unfold output_represents, out. cbn [output_size materialize_output]. auto. }
  apply covar_x_represents in Hrx.
  change (squeeze0_shape [1; n1; n2]) with [n1; n2] in Hrx.
  destruct (forward_kron (multitask_of_linear task lk t) x1 x2 ci out mi
              (squeeze0 r) r1 c1 n1 n2 Ht Hci Hri Hout Hrx)
    as (m & Hfw & Hem & _ & Hsm & Hent).
  eexists; exists m. split; [exact Hfw|]. split; [exact Hem|].
  split; [exact Hsm|].
  intros p q i j Hp Hq Hi Hj. rewrite Hent by assumption.
  rewrite (entry_squeeze0 r n1 n2 i j Hsr), Her by (assumption || lia).
  reflexivity.
Qed.

End MultitaskMore.

(** * The task covariance of [_eval_covar_matrix] *)

Lemma norm_dim_minus2_small (r : nat) : r < 2 -> norm_dim r (-2) = None.
Proof.
  intros Hr. unfold norm_dim. simpl ((0 <=? -2)%Z && _).
  replace ((- Z.of_nat r <=? -2) && (-2 <? 0))%Z with false
    by (symmetry; apply andb_false_iff; left; apply Z.leb_gt; lia).
  reflexivity.
Qed.

Section EvalCovarMatrixFacts.

Context {F : Type} `{Scalar F} `{Exponential F}.

Lemma entry_exp_vector (t : tensor F) (n i : nat) :
  shape t = [n] -> wf t -> i < n -> entry (exp t) [i] = fexp (entry t [i]).
Proof.
  intros Hs Hw Hi. unfold wf in Hw. rewrite Hs in Hw. simpl in Hw.
  unfold entry, entry_d, exp. simpl. rewrite Hs. simpl.
  rewrite (nth_indep _ fzero (fexp fzero)) by (rewrite length_map; lia).
  apply map_nth.
Qed.

Lemma diag_vector (v : tensor F) (n : nat) :
  shape v = [n] ->
  exists m, diag v = Ok m /\ shape m = [n; n] /\ wf m /\
    forall i j, i < n -> j < n ->
      entry m [i; j] = if i =? j then entry v [i] else fzero.
Proof.
  intros Hv. unfold diag. rewrite Hv.
  eexists; split; [reflexivity|]. split; [reflexivity|].
  split; [apply wf_tabulate|].
  intros i j Hi Hj. rewrite entry_tabulate by (apply in_range2; assumption).
  reflexivity.
Qed.

Lemma in_range2_inv (n m : nat) (idx : list nat) :
  in_range [n; m] idx -> exists i j, idx = [i; j] /\ i < n /\ j < m.
Proof.
  intros Hr. destruct (in_range_last2_inv [] n m idx Hr)
    as (bi & i & j & -> & Hb & Hi & Hj).
  apply in_range_nil in Hb. subst. exists i, j. auto.
Qed.

(** The product [covar_factor covar_factorᵗ] of a matrix. *)
Lemma factor_product (f : tensor F) (n r : nat) :
  shape f = [n; r] ->
  exists ft p, transpose f (-1) (-2) = Ok ft /\ matmul f ft = Ok p /\
    shape p = [n; n] /\ wf p /\
    forall i j, i < n -> j < n ->
      entry p [i; j] = dot r (fun kk => entry f [i; kk]) (fun kk => entry f [j; kk]).
Proof.
  intros Hf.
  destruct (transpose_last2 f [] n r Hf) as (ft & Ht & _ & Hsft & _ & Heft).
  cbn [app] in Hsft.
  destruct (matmul_last2 f ft [] n r n Hf Hsft) as (p & Hp & Hsp & Hwp & Hep).
  exists ft, p. split; [exact Ht|]. split.
  { unfold matmul, ndimension. rewrite Hf, Hsft. exact Hp. }
  split; [exact Hsp|]. split; [exact Hwp|].
  intros i j Hi Hj.
  pose proof (Hep [] i j (Forall2_nil _) Hi Hj) as Hx. cbn [app] in Hx.
  rewrite Hx. apply dot_ext. intros kk Hk.
  pose proof (Heft [] kk j (Forall2_nil _) Hk Hj) as Hy. cbn [app] in Hy.
  rewrite Hy. reflexivity.
Qed.

(** X11.  For a factor of shape [(n, r)] and log-variances of length [n],
    [_eval_covar_matrix] returns the [n x n] matrix whose entry [(i, j)] is
    the product of rows [i] and [j] of the factor, plus [exp(log_var[i])] on
    the diagonal and zero off it; the matrix equals its transpose when the
    scalar product commutes. *)
Theorem eval_covar_matrix_entries (covar_factor log_var : tensor F) (n r : nat) :
  shape covar_factor = [n; r] -> shape log_var = [n] -> wf log_var ->
  exists m,
    _eval_covar_matrix covar_factor log_var = Ok m /\
    shape m = [n; n] /\ wf m /\
    (forall i j, i < n -> j < n ->
       entry m [i; j] =
       fadd (dot r (fun kk => entry covar_factor [i; kk])
                   (fun kk => entry covar_factor [j; kk]))
            (if i =? j then fexp (entry log_var [i]) else fzero)) /\
    (fmul_comm F -> transpose m (-1) (-2) = Ok m).
Proof.
  intros Hf Hl Hw.
  destruct (factor_product covar_factor n r Hf)
    as (ft & p & Ht & Hp & Hsp & _ & Hep).
  destruct (diag_vector (exp log_var) n Hl) as (dg & Hd & Hsd & _ & Hed).
  destruct (add_same p dg _ Hsp Hsd) as (m & Hm & Hsm & Hwm & Hem).
  assert (Hent : forall i j, i < n -> j < n ->
            entry m [i; j] =
            fadd (dot r (fun kk => entry covar_factor [i; kk])
                        (fun kk => entry covar_factor [j; kk]))
                 (if i =? j then fexp (entry log_var [i]) else fzero)).
  { intros i j Hi Hj. rewrite Hem by (apply in_range2; assumption).
    rewrite Hep, Hed by assumption.
    destruct (i =? j); [|reflexivity].
    rewrite (entry_exp_vector log_var n i Hl Hw Hi). reflexivity. }
  exists m. split.
  { unfold _eval_covar_matrix. rewrite Ht. cbn [bind]. rewrite Hp. cbn [bind].
    rewrite Hd. exact Hm. }
  split; [exact Hsm|]. split; [exact Hwm|]. split; [exact Hent|].
  intros Hcomm.
  destruct (transpose_last2 m [] n n Hsm) as (mt & Hmt & _ & Hsmt & Hwmt & Hemt).
  cbn [app] in Hsmt. rewrite Hmt. f_equal.
  apply (tensor_ext F mt m); [congruence | exact Hwmt | exact Hwm |].
  rewrite Hsmt. intros idx Hidx.
  apply in_range2_inv in Hidx. destruct Hidx as (i & j & -> & Hi & Hj).
  pose proof (Hemt [] i j (Forall2_nil _) Hi Hj) as Hx. cbn [app] in Hx.
  rewrite Hx, !Hent by assumption.
  rewrite (Nat.eqb_sym j i).
  destruct (Nat.eqb_spec i j) as [-> | Hij];
    (f_equal; apply dot_ext; intros kk _; apply Hcomm).
Qed.

Lemma broadcast_square_one (n : nat) :
  broadcast_shapes [n; n] [1; 1] = Some [n; n].
Proof.
  unfold broadcast_shapes. simpl.
  destruct (n =? 1) eqn:Hn; [apply Nat.eqb_eq in Hn; subst|]; reflexivity.
Qed.

(** X12.  With a single log-variance the diagonal matrix is [1 x 1] and broadcasts
    over the whole product: [exp(log_var[0])] is added to every entry, off
    the diagonal too. *)
Theorem eval_covar_matrix_single_log_var (covar_factor log_var : tensor F) (n r : nat) :
  shape covar_factor = [n; r] -> shape log_var = [1] -> wf log_var ->
  exists m,
    _eval_covar_matrix covar_factor log_var = Ok m /\
    shape m = [n; n] /\
    forall i j, i < n -> j < n ->
      entry m [i; j] =
      fadd (dot r (fun kk => entry covar_factor [i; kk])
                  (fun kk => entry covar_factor [j; kk]))
           (fexp (entry log_var [0])).
Proof.
  intros Hf Hl Hw.
  destruct (factor_product covar_factor n r Hf)
    as (ft & p & Ht & Hp & Hsp & _ & Hep).
  destruct (diag_vector (exp log_var) 1 Hl) as (dg & Hd & Hsd & _ & Hed).
  unfold _eval_covar_matrix. rewrite Ht. cbn [bind]. rewrite Hp. cbn [bind].
  rewrite Hd. cbn [bind]. unfold add, broadcast_op.
  rewrite Hsp, Hsd, broadcast_square_one.
  eexists; split; [reflexivity|]. split; [reflexivity|].
  intros i j Hi Hj. rewrite entry_tabulate by (apply in_range2; assumption).
  rewrite bidx_in_range by (apply in_range2; assumption).
  change (bidx [1; 1] [i; j]) with [0; 0].
  rewrite Hep by assumption. rewrite (Hed 0 0) by lia. simpl.
  rewrite (entry_exp_vector log_var 1 0 Hl Hw) by lia. reflexivity.
Qed.

(** X13.  [_eval_covar_matrix] fails with an index error on a factor with fewer
    than two dimensions, and with a broadcast error when the number [m] of
    log-variances differs from the number [n] of rows of the factor and
    neither is 1. *)
Theorem eval_covar_matrix_errors (covar_factor log_var : tensor F) :
  (ndimension covar_factor < 2 ->
   _eval_covar_matrix covar_factor log_var = Err IndexError) /\
  (forall n r m, shape covar_factor = [n; r] -> shape log_var = [m] ->
     m <> n -> m <> 1 -> n <> 1 ->
     _eval_covar_matrix covar_factor log_var = Err BroadcastError).
Proof.
  split.
  - intros Hr. unfold _eval_covar_matrix, transpose.
    rewrite norm_dim_minus2_small by exact Hr.
    destruct (norm_dim (ndimension covar_factor) (-1)); reflexivity.
  - intros n r m Hf Hl Hmn Hm1 Hn1.
    destruct (factor_product covar_factor n r Hf)
      as (ft & p & Ht & Hp & Hsp & _).
    destruct (diag_vector (exp log_var) m Hl) as (dg & Hd & Hsd & _).
    unfold _eval_covar_matrix. rewrite Ht. cbn [bind]. rewrite Hp. cbn [bind].
    rewrite Hd. cbn [bind]. unfold add, broadcast_op. rewrite Hsp, Hsd.
    unfold broadcast_shapes. simpl.
    apply Nat.eqb_neq in Hmn, Hm1, Hn1. rewrite Nat.eqb_sym in Hmn.
    rewrite Hmn, Hn1, Hm1. reflexivity.
Qed.

End EvalCovarMatrixFacts.

(** * The further theorems on concrete inputs *)

Lemma Z_fsub_zero : fsub_zero Z.
Proof. intros a. apply Z.sub_0_r. Qed.

Lemma Z_fadd_zero : fadd_zero Z.
Proof. intros a. apply Z.add_0_r. Qed.

(** X1 on concrete inputs. *)
Lemma fresh_kernel_is_gram_matrix_witness :
  exists l m,
    LinearKernel.forward (LinearKernel.init 3) ex_x23 ex_x13 = Ok l /\
    evaluate l = Ok m /\ shape m = [1; 2; 1] /\
    forall bi i j, bi < 1 -> i < 2 -> j < 1 ->
      entry m [bi; i; j] =
      dot 3 (fun kk => row_entry ex_x23 bi i kk) (fun kk => row_entry ex_x13 bi j kk).
Proof.
  apply (fresh_kernel_is_gram_matrix 3 1 2 1 ex_x23 ex_x13
           Z_feqb_sound Z_fsub_zero Z_fadd_zero).
  - right. split; reflexivity.
  - right. split; reflexivity.
Defined.

(** X2 on concrete inputs. *)
Lemma forward_swapped_inputs_transpose_witness :
  exists l12 l21 m12 m21,
    LinearKernel.forward ex_kernel ex_x23 ex_x13 = Ok l12 /\ evaluate l12 = Ok m12 /\
    LinearKernel.forward ex_kernel ex_x13 ex_x23 = Ok l21 /\ evaluate l21 = Ok m21 /\
    transpose m21 (-1) (-2) = Ok m12.
Proof.
  apply (forward_swapped_inputs_transpose ex_kernel 3 1 2 1 ex_x23 ex_x13
           Z_feqb_sound Z_fmul_comm ex_kernel_registered).
  - right. split; reflexivity.
  - right. split; reflexivity.
Defined.

(** X3 on concrete inputs. *)
Lemma forward_error_kinds_witness :
  MatmulError = BroadcastError \/ MatmulError = MatmulError.
Proof.
  apply (forward_error_kinds ex_kernel 3 ex_x1103 ex_x1123 MatmulError
           ex_kernel_registered).
  vm_compute. reflexivity.
Defined.

(** X4 on concrete inputs. *)
Lemma forward_equal_inputs_defined_witness :
  ((exists l, LinearKernel.forward ex_kernel ex_x1 ex_x1 = Ok l) <->
   (exists c, sub ex_x1 (LinearKernel.offset ex_kernel) = Ok c)) /\
  (forall e, LinearKernel.forward ex_kernel ex_x1 ex_x1 = Err e ->
             e = BroadcastError).
Proof.
  apply (forward_equal_inputs_defined ex_kernel 3 ex_x1 ex_x1
           ex_kernel_registered).
  - reflexivity.
  - unfold elementwise_equal. simpl. repeat constructor.
Defined.


(** X6 on concrete inputs. *)
Lemma forward_one_dimension_broadcasts_witness :
  exists l m,
    LinearKernel.forward ex_kernel1 ex_x54 ex_x54 = Ok l /\ evaluate l = Ok m /\
    shape m = [1; 5; 5] /\
    forall bi i j, bi < 1 -> i < 5 -> j < 5 ->
      entry m [bi; i; j] =
      fadd (dot 4
              (fun kk => fsub (row_entry ex_x54 bi i kk)
                              (entry (LinearKernel.offset ex_kernel1) [0; 0; 0]))
              (fun kk => fsub (row_entry ex_x54 bi j kk)
                              (entry (LinearKernel.offset ex_kernel1) [0; 0; 0])))
           (entry (LinearKernel.variance ex_kernel1) [0]).
Proof.
  apply (forward_one_dimension_broadcasts ex_kernel1 1 5 5 4 ex_x54 ex_x54
           Z_feqb_sound ex_kernel1_registered).
  - right. split; reflexivity.
  - right. split; reflexivity.
Defined.

(** X7: [size] on an input with two batch dimensions and on a vector. *)
Lemma size_outcome_witness :
  MultitaskKernel.size ex_multitask ex_x1222 ex_x23 = Ok [4; 4] /\
  MultitaskKernel.size ex_multitask ex_x1 ex_x23 = Err IndexError.
Proof.
  split.
  - apply (proj2 (size_outcome ex_multitask ex_x1222 ex_x23));
      unfold ndimension; simpl; lia.
  - apply (proj1 (size_outcome ex_multitask ex_x1 ex_x23)). left.
    unfold ndimension. simpl. lia.
Defined.

(** X8 on concrete inputs. *)
Lemma forward_without_tasks_witness :
  MultitaskKernel.forward ex_multitask0 ex_x23 ex_x13 = Err RangeError /\
  (2 <= ndimension ex_x23 -> 2 <= ndimension ex_x13 ->
   exists s, MultitaskKernel.size ex_multitask0 ex_x23 ex_x13 = Ok s /\ numel s = 0).
Proof.
  apply (forward_without_tasks ex_multitask0 ex_x23 ex_x13). reflexivity.
Defined.

(** X9: A batch of two: the data covariance keeps three dimensions. *)
Lemma forward_returns_iff_matrix_witness :
  MultitaskKernel.forward ex_multitask ex_x223 ex_x223 = Err ShapeMismatch.
Proof.
  assert (Hout : exists out,
             MultitaskKernel.data_covar_module ex_multitask ex_x223 ex_x223
               = Ok out /\ output_size out = Ok [2; 2; 2]).
  { eexists. split; vm_compute; reflexivity. }
  destruct Hout as (out & Hout & Hs).
  destruct (forward_returns_iff_matrix ex_multitask ex_x223 ex_x223
              (NonLazyVariable ex_task_covar) out [2; 2; 2] 2 2)
    as (_ & _ & Hb & _);
    [unfold ex_multitask; simpl; lia | reflexivity | reflexivity
     | exact Hout | exact Hs |].
  apply (Hb 2 2 2 eq_refl). discriminate.
Defined.

(** X10 on concrete inputs. *)
Lemma multitask_of_linear_forward_witness :
  exists res m,
    MultitaskKernel.forward
      (multitask_of_linear (fun _ => Ok (NonLazyVariable ex_task_covar)) ex_kernel 2)
      ex_x23 ex_x13 = Ok res /\
    evaluate res = Ok m /\ shape m = [2 * 2; 2 * 1] /\
    forall p q i j, p < 2 -> q < 2 -> i < 2 -> j < 1 ->
      entry m [p * 2 + i; q * 1 + j] =
      fmul (entry ex_task_covar [p; q])
           (linear_kernel_entry (LinearKernel.offset ex_kernel)
                                (LinearKernel.variance ex_kernel)
                                ex_x23 ex_x13 3 0 i j).
Proof.
  apply (multitask_of_linear_forward
           (fun _ => Ok (NonLazyVariable ex_task_covar)) ex_kernel
           2 3 2 1 2 2 ex_x23 ex_x13 (NonLazyVariable ex_task_covar) ex_task_covar
           Z_feqb_sound ex_kernel_registered).
  - right. split; reflexivity.
  - right. split; reflexivity.
  - lia.
  - reflexivity.
  - repeat split.
Defined.

(** X11 on concrete inputs. *)
Lemma eval_covar_matrix_entries_witness :
  exists m,
    _eval_covar_matrix ex_factor ex_log_var = Ok m /\
    shape m = [2; 2] /\ wf m /\
    (forall i j, i < 2 -> j < 2 ->
       entry m [i; j] =
       fadd (dot 1 (fun kk => entry ex_factor [i; kk])
                   (fun kk => entry ex_factor [j; kk]))
            (if i =? j then fexp (entry ex_log_var [i]) else fzero)) /\
    (fmul_comm Z -> transpose m (-1) (-2) = Ok m).
Proof.
  apply (eval_covar_matrix_entries ex_factor ex_log_var 2 1); reflexivity.
Defined.

(** X12 on concrete inputs. *)
Lemma eval_covar_matrix_single_log_var_witness :
  exists m,
    _eval_covar_matrix ex_factor ex_log_var1 = Ok m /\
    shape m = [2; 2] /\
    forall i j, i < 2 -> j < 2 ->
      entry m [i; j] =
      fadd (dot 1 (fun kk => entry ex_factor [i; kk])
                  (fun kk => entry ex_factor [j; kk]))
           (fexp (entry ex_log_var1 [0])).
Proof.
  apply (eval_covar_matrix_single_log_var ex_factor ex_log_var1 2 1); reflexivity.
Defined.

(** X13 on concrete inputs. *)
Lemma eval_covar_matrix_errors_witness :
  _eval_covar_matrix ex_x1 ex_log_var = Err IndexError /\
  _eval_covar_matrix ex_factor ex_log_var3 = Err BroadcastError.
Proof.
  split.
  - apply (proj1 (eval_covar_matrix_errors ex_x1 ex_log_var)).
    unfold ndimension. simpl. lia.
  - apply (proj2 (eval_covar_matrix_errors ex_factor ex_log_var3) 2 1 3);
      (reflexivity || discriminate).
Defined.
